(** * Audio recorder plugin: recorder wrapper, save routine and rename flow

    A shallow embedding of the two revisions of the plugin source the
    repository holds: the revision with the recording dialog (everything
    outside [Module MainTs]) and the revision of [src/main.ts], without
    that dialog ([Module MainTs], where the two differ).

    JavaScript strings are embedded as [string]; a character stands for a
    code unit below 256, so the white space removed by [trim] is the
    part of the ECMAScript WhiteSpace and LineTerminator sets that lies
    in that range. *)

From Stdlib Require Import Ascii NArith DecimalString.
From Stdlib Require DecimalN.
From stdpp Require Import base gmap sets list strings.

(** ** Strings *)

(** [str.trim()] removes white space from both ends. *)
Definition isWhiteSpace (c : ascii) : bool :=
  let n := N_of_ascii c in
  ((9 <=? n) && (n <=? 13) || (n =? 32) || (n =? 160))%N.

Fixpoint trimStart (s : string) : string :=
  match s with
  | EmptyString => EmptyString
  | String c s' => if isWhiteSpace c then trimStart s' else s
  end.

Fixpoint trimEnd (s : string) : string :=
  match s with
  | EmptyString => EmptyString
  | String c s' =>
      match trimEnd s' with
      | EmptyString => if isWhiteSpace c then EmptyString else String c EmptyString
      | t => String c t
      end
  end.

Definition trim (s : string) : string := trimEnd (trimStart s).

(** [if (s)] on a string: only the empty string is falsy. *)
Definition truthy (s : string) : bool :=
  match s with EmptyString => false | _ => true end.

(** [s.startsWith(p)] *)
Definition startsWith (s p : string) : bool := String.prefix p s.

(** ** Encoding-type selection (first lines of the [try] block of
    [startRecording], identical in both revisions) *)

Definition mimeTypes : list string :=
  ["audio/mp3"; "audio/mpeg"; "audio/webm;codecs=opus"; "audio/webm"].

(** [let selectedType = ''; for (const type of mimeTypes) if
    (isTypeSupported(type)) { selectedType = type; break; }] *)
Fixpoint select_loop (isTypeSupported : string → bool) (types : list string)
    (selectedType : string) : string :=
  match types with
  | [] => selectedType
  | type :: rest =>
      if isTypeSupported type then type
      else select_loop isTypeSupported rest selectedType
  end.

Definition selectType (isTypeSupported : string → bool) : string :=
  select_loop isTypeSupported mimeTypes "".

(** ** Host objects *)

(** A binary object: its bytes and its [type] tag. *)
Record Blob := { blob_bytes : list Byte.byte; blob_type : string }.

Definition blob_size (b : Blob) : nat := length (blob_bytes b).

(** [new Blob(parts, { type })]: the parts' bytes, one after the other. *)
Definition new_Blob (parts : list Blob) (type : string) : Blob :=
  {| blob_bytes := concat (map blob_bytes parts); blob_type := type |}.

(** [new Blob([])] *)
Definition empty_Blob : Blob := new_Blob [] "".

(** A device stream, with the identifiers of its tracks. *)
Record MediaStream := { stream_id : nat; tracks : list nat }.

Inductive RecordingState := inactive | recording.

(** A host [MediaRecorder].  The two handlers the wrapper installs are
    fixed closures, so a handler slot records only whether it is set
    and, for [onstop], the promise whose [resolve] the closure holds.
    [stop_queued] is the task queued by [stop()] that will fire
    [dataavailable] and then [stop]. *)
Record MediaRecorder := {
  mr_stream : MediaStream;
  mr_mimeType : string;
  mr_state : RecordingState;
  mr_ondataavailable : bool;
  mr_onstop : option nat;
  mr_stop_queued : bool
}.

Inductive Promise := pending | fulfilled (value : Blob).

(** What the host answers to [getUserMedia({ audio: true })]. *)
Inductive MediaAnswer := Granted (s : MediaStream) | Denied (message : string).

(** A vault file handle: [path] and [name] (the last path segment). *)
Record TFile := { path : string; name : string }.

(** Observable effects, in the order they happen. *)
Inductive Effect :=
| Notice (text : string)
| ConsoleError (text : string)
| TrackStop (track : nat)
| Resolve (p : nat) (value : Blob)
| PlaybackRefresh.

(** ** The world: vault, media devices, object heap, effect log, and the
    fields of the single [AudioRecorder] the plugin creates in [onload]. *)
Record World := {
  folders : gset string;
  files : gmap string (list Byte.byte);
  granted : list MediaStream;
  ended : gset nat;
  recorders : list MediaRecorder;
  promises : list Promise;
  log : list Effect;
  mediaRecorder : option nat;
  audioChunks : list Blob;
  stream : option MediaStream
}.

Definition set_vault (fo : gset string) (fi : gmap string (list Byte.byte))
    (w : World) : World :=
  {| folders := fo; files := fi; granted := granted w; ended := ended w;
     recorders := recorders w; promises := promises w; log := log w;
     mediaRecorder := mediaRecorder w; audioChunks := audioChunks w;
     stream := stream w |}.

Definition set_media (g : list MediaStream) (e : gset nat) (w : World) : World :=
  {| folders := folders w; files := files w; granted := g; ended := e;
     recorders := recorders w; promises := promises w; log := log w;
     mediaRecorder := mediaRecorder w; audioChunks := audioChunks w;
     stream := stream w |}.

Definition set_recorders (rs : list MediaRecorder) (w : World) : World :=
  {| folders := folders w; files := files w; granted := granted w;
     ended := ended w; recorders := rs; promises := promises w; log := log w;
     mediaRecorder := mediaRecorder w; audioChunks := audioChunks w;
     stream := stream w |}.

Definition set_promises (ps : list Promise) (w : World) : World :=
  {| folders := folders w; files := files w; granted := granted w;
     ended := ended w; recorders := recorders w; promises := ps; log := log w;
     mediaRecorder := mediaRecorder w; audioChunks := audioChunks w;
     stream := stream w |}.

Definition set_log (l : list Effect) (w : World) : World :=
  {| folders := folders w; files := files w; granted := granted w;
     ended := ended w; recorders := recorders w; promises := promises w;
     log := l; mediaRecorder := mediaRecorder w; audioChunks := audioChunks w;
     stream := stream w |}.

Definition set_this (mr : option nat) (chunks : list Blob)
    (s : option MediaStream) (w : World) : World :=
  {| folders := folders w; files := files w; granted := granted w;
     ended := ended w; recorders := recorders w; promises := promises w;
     log := log w; mediaRecorder := mr; audioChunks := chunks; stream := s |}.

(** The world right after [onload]: nothing recorded, nothing requested. *)
Definition fresh (fo : gset string) (fi : gmap string (list Byte.byte)) : World :=
  {| folders := fo; files := fi; granted := []; ended := ∅; recorders := [];
     promises := []; log := []; mediaRecorder := None; audioChunks := [];
     stream := None |}.

(** ** Computations: state passing, with JavaScript exceptions *)

Inductive Completion (A : Type) := Normal (a : A) | Throw (message : string).
Arguments Normal {A} a.
Arguments Throw {A} message.

(** A computation over a state [S]; a thrown exception keeps the state
    reached so far. *)
Definition St (S A : Type) : Type := S → Completion A * S.

Global Instance St_ret {S} : MRet (St S) := λ A a s, (Normal a, s).
Global Instance St_bind {S} : MBind (St S) := λ A B f m s,
  match m s with
  | (Normal a, s') => f a s'
  | (Throw e, s') => (Throw e, s')
  end.
Global Instance St_throw {S} : MThrow string (St S) := λ A e s, (Throw e, s).

Definition gets {S A} (f : S → A) : St S A := λ s, (Normal (f s), s).
Definition modify {S} (f : S → S) : St S unit := λ s, (Normal (), f s).

(** [try { body } catch (error) { handler }] *)
Definition try_catch {S A} (body : St S A) (handler : string → St S A) : St S A :=
  λ s, match body s with
       | (Normal a, s') => (Normal a, s')
       | (Throw e, s') => handler e s'
       end.

(** Computations over the world. *)
Abbreviation M := (St World).

(** [xs.forEach(f)] *)
Fixpoint forEach {S A} (f : A → St S unit) (xs : list A) : St S unit :=
  match xs with
  | [] => mret ()
  | x :: xs' => f x;; forEach f xs'
  end.

Definition emit (e : Effect) : M unit := modify (λ w, set_log (log w ++ [e]) w).
Definition new_Notice (text : string) : M unit := emit (Notice text).
Definition console_error (text : string) : M unit := emit (ConsoleError text).

(** ** Host operations the plugin calls *)

(** [await navigator.mediaDevices.getUserMedia({ audio: true })], given the
    host's answer: a granted stream is handed out, a denial rejects. *)
Definition getUserMedia (answer : MediaAnswer) : M MediaStream :=
  match answer with
  | Granted s => modify (λ w, set_media (granted w ++ [s]) (ended w) w);; mret s
  | Denied message => mthrow message
  end.

(** [track.stop()] *)
Definition track_stop (t : nat) : M unit :=
  modify (λ w, set_media (granted w) (ended w ∪ {[t]}) w);; emit (TrackStop t).

(** A stream is live while one of its tracks has not been stopped. *)
Definition stream_live (w : World) (s : MediaStream) : bool :=
  existsb (λ t, negb (bool_decide (t ∈ ended w))) (tracks s).

Definition live_streams (w : World) : list MediaStream :=
  filter (λ s, stream_live w s = true) (granted w).

(** [new MediaRecorder(stream, { mimeType })]: a reference to a new,
    inactive recorder without handlers. *)
Definition new_MediaRecorder (s : MediaStream) (mimeType : string) : M nat := λ w,
  (Normal (length (recorders w)),
   set_recorders (recorders w ++
     [{| mr_stream := s; mr_mimeType := mimeType; mr_state := inactive;
         mr_ondataavailable := false; mr_onstop := None;
         mr_stop_queued := false |}]) w).

Definition update_recorder (mr : nat) (f : MediaRecorder → MediaRecorder) : M unit :=
  modify (λ w, set_recorders (alter f mr (recorders w)) w).

Definition with_state (st : RecordingState) (queued : bool) (r : MediaRecorder) :=
  {| mr_stream := mr_stream r; mr_mimeType := mr_mimeType r; mr_state := st;
     mr_ondataavailable := mr_ondataavailable r; mr_onstop := mr_onstop r;
     mr_stop_queued := queued |}.

Definition with_ondataavailable (r : MediaRecorder) :=
  {| mr_stream := mr_stream r; mr_mimeType := mr_mimeType r;
     mr_state := mr_state r; mr_ondataavailable := true;
     mr_onstop := mr_onstop r; mr_stop_queued := mr_stop_queued r |}.

Definition with_onstop (p : nat) (r : MediaRecorder) :=
  {| mr_stream := mr_stream r; mr_mimeType := mr_mimeType r;
     mr_state := mr_state r; mr_ondataavailable := mr_ondataavailable r;
     mr_onstop := Some p; mr_stop_queued := mr_stop_queued r |}.

(** [recorder.start()]: an inactive recorder starts recording; on any other
    state the host throws. *)
Definition MediaRecorder_start (mr : nat) : M unit :=
  r ← gets (λ w, recorders w !! mr);
  match r with
  | Some {| mr_state := inactive |} => update_recorder mr (with_state recording false)
  | _ => mthrow "InvalidStateError"
  end.

(** [recorder.stop()]: on an inactive recorder nothing happens; otherwise the
    recorder becomes inactive and the task firing [dataavailable] and [stop]
    is queued. *)
Definition MediaRecorder_stop (mr : nat) : M unit :=
  r ← gets (λ w, recorders w !! mr);
  match r with
  | Some {| mr_state := recording |} => update_recorder mr (with_state inactive true)
  | _ => mret ()
  end.

(** [new Promise(...)] yields a reference to a pending promise; [resolve]
    settles it once, later calls are ignored. *)
Definition new_Promise : M nat := λ w,
  (Normal (length (promises w)), set_promises (promises w ++ [pending]) w).

Definition resolve (p : nat) (value : Blob) : M unit :=
  st ← gets (λ w, promises w !! p);
  match st with
  | Some pending =>
      modify (λ w, set_promises (<[p := fulfilled value]> (promises w)) w);;
      emit (Resolve p value)
  | _ => mret ()
  end.

(** [vault.adapter.exists(path)] *)
Definition adapter_exists (p : string) : M bool :=
  gets (λ w, bool_decide (p ∈ folders w) || bool_decide (is_Some (files w !! p))).

(** [vault.createFolder(path)] *)
Definition createFolder (p : string) : M unit :=
  ex ← adapter_exists p;
  if ex : bool then mthrow "Folder already exists."
  else modify (λ w, set_vault (folders w ∪ {[p]}) (files w) w).

(** [vault.rename(file, newPath)]: moves the bytes; fails when the source is
    gone or the destination is taken. *)
Definition vault_rename (file : TFile) (newPath : string) : M unit :=
  cur ← gets (λ w, files w !! path file);
  match cur with
  | None => mthrow "File not found."
  | Some data =>
      ex ← adapter_exists newPath;
      if ex : bool then mthrow "Destination file already exists!"
      else modify (λ w,
             set_vault (folders w) (<[newPath := data]> (delete (path file) (files w))) w)
  end.

Section Host.

(** What the sources leave to the host: which encoding types
    [MediaRecorder.isTypeSupported] accepts, and whether
    [vault.createBinary] replaces a file that is already there
    ([true]) or rejects the write ([false]). *)
Variable isTypeSupported : string → bool.
Variable createBinary_replaces : bool.

(** [vault.createBinary(path, data)] *)
Definition createBinary (p : string) (data : list Byte.byte) : M unit :=
  cur ← gets (λ w, files w !! p);
  match cur with
  | Some _ =>
      if createBinary_replaces
      then modify (λ w, set_vault (folders w) (<[p := data]> (files w)) w)
      else mthrow "File already exists."
  | None => modify (λ w, set_vault (folders w) (<[p := data]> (files w)) w)
  end.

(** ** [AudioRecorder] (revision with the recording dialog) *)

(** [startRecording()], resumed with the host's answer to the device
    request. *)
Definition startRecording (answer : MediaAnswer) : M (option MediaStream) :=
  try_catch
    (s ← getUserMedia answer;
     modify (λ w, set_this (mediaRecorder w) (audioChunks w) (Some s) w);;
     let selectedType := selectType isTypeSupported in
     mr ← new_MediaRecorder s selectedType;
     modify (λ w, set_this (Some mr) (audioChunks w) (stream w) w);;
     modify (λ w, set_this (mediaRecorder w) [] (stream w) w);;
     update_recorder mr with_ondataavailable;;
     MediaRecorder_start mr;;
     new_Notice "Recording started...";;
     gets stream)
    (λ error,
       console_error ("Error starting recording: " +:+ error);;
       new_Notice ("Failed to start recording: " +:+ error);;
       mret None).

(** The [ondataavailable] handler: [this.audioChunks.push(event.data)]. *)
Definition ondataavailable (data : Blob) : M unit :=
  modify (λ w, set_this (mediaRecorder w) (audioChunks w ++ [data]) (stream w) w).

(** The [onstop] handler installed by [stopRecording], holding the
    [resolve] of promise [p]. *)
Definition onstop (p : nat) : M unit :=
  chunks ← gets audioChunks;
  let audioBlob := new_Blob chunks "audio/mp3" in
  modify (λ w, set_this (mediaRecorder w) [] (stream w) w);;
  s ← gets stream;
  match s with
  | Some s =>
      forEach track_stop (tracks s);;
      modify (λ w, set_this (mediaRecorder w) (audioChunks w) None w)
  | None => mret ()
  end;;
  resolve p audioBlob.

(** [stopRecording()]: the promise executor runs at once; the returned
    value is the reference to the promise. *)
Definition stopRecording : M nat :=
  p ← new_Promise;
  mr ← gets mediaRecorder;
  match mr with
  | None => resolve p empty_Blob;; mret p
  | Some mr =>
      update_recorder mr (with_onstop p);;
      MediaRecorder_stop mr;;
      new_Notice "Recording stopped!";;
      mret p
  end.

(** ** The host delivers recorder events *)

(** A [dataavailable] event on recorder [mr] runs the installed handler. *)
Definition fire_dataavailable (mr : nat) (data : Blob) : M unit :=
  r ← gets (λ w, recorders w !! mr);
  match r with
  | Some {| mr_ondataavailable := true |} => ondataavailable data
  | _ => mret ()
  end.

(** The task queued by [recorder.stop()]: the data gathered since the last
    chunk is delivered, then the [stop] event runs the [onstop] handler
    ([handler p] is the closure holding the [resolve] of promise [p]). *)
Definition fire_stop (handler : nat → M unit) (mr : nat) (final : Blob) : M unit :=
  r ← gets (λ w, recorders w !! mr);
  match r with
  | Some {| mr_stop_queued := true; mr_onstop := h |} =>
      update_recorder mr (with_state inactive false);;
      fire_dataavailable mr final;;
      match h with
      | Some p => handler p
      | None => mret ()
      end
  | _ => mret ()
  end.

(** ** [MyPlugin.saveAudio(blob, filename)] *)
Definition saveAudio (blob : Blob) (filename : string) : M unit :=
  let audioDir := "Audio" in
  ex ← adapter_exists audioDir;
  (if ex : bool then mret () else createFolder audioDir);;
  let arrayBuffer := blob_bytes blob in
  createBinary (audioDir +:+ "/" +:+ filename) arrayBuffer;;
  new_Notice ("Saved: " +:+ filename).

End Host.

(** ** Histories of the wrapper

    What can happen to the one wrapper, in any order: its two methods are
    called (a [Start] comes with the host's answer), and the host fires
    recorder events. *)
Inductive Call :=
| Start (answer : MediaAnswer)
| Stop
| Data (mr : nat) (data : Blob)
| StopTask (mr : nat) (final : Blob).

Definition call (isTypeSupported : string → bool) (c : Call) : M unit :=
  match c with
  | Start answer => _ ← startRecording isTypeSupported answer; mret ()
  | Stop => _ ← stopRecording; mret ()
  | Data mr data => fire_dataavailable mr data
  | StopTask mr final => fire_stop onstop mr final
  end.

Definition calls (isTypeSupported : string → bool) (cs : list Call) (w : World)
    : World :=
  foldl (λ w c, (call isTypeSupported c w).2) w cs.

(** ** Rename flow (identical in both revisions) *)

Definition dquote : string := String "034"%char "".

(** The callback the playback dialog hands to the rename dialog:
    [async (newName) => { if (newName && newName !== file.name) ... }].
    The existence check and the rename are taken to complete without
    another handler running in between. *)
Definition rename_callback (file : TFile) (newName : string) : M unit :=
  if truthy newName && bool_decide (newName ≠ name file) then
    let newPath := "Audio/" +:+ newName in
    ex ← adapter_exists newPath;
    if ex : bool then
      new_Notice ("Error: A file named " +:+ dquote +:+ newName +:+ dquote
                  +:+ " already exists")
    else
      try_catch
        (vault_rename file newPath;;
         new_Notice ("Renamed to: " +:+ newName);;
         emit PlaybackRefresh)
        (λ err, new_Notice ("Error renaming file: " +:+ err))
  else mret ().

(** The rename dialog: the file handle it was created for, the text of its
    input field, and whether it is open. *)
Record RenameModal := { file : TFile; inputEl : string; opened : bool }.

Definition new_RenameModal (f : TFile) : RenameModal :=
  {| file := f; inputEl := ""; opened := false |}.

(** [onOpen()]: the input field is pre-filled with [this.file.name + ".mp3"]. *)
Definition RenameModal_onOpen (m : RenameModal) : RenameModal :=
  {| file := file m; inputEl := name (file m) +:+ ".mp3"; opened := true |}.

(** The user edits the input field. *)
Definition type_input (text : string) (m : RenameModal) : RenameModal :=
  {| file := file m; inputEl := text; opened := opened m |}.

(** What the dialog is after a submitted rename: [this.file.name = newName;
    this.close()]. *)
Definition submitted (newName : string) (m : RenameModal) : RenameModal :=
  {| file := {| path := path (file m); name := newName |};
     inputEl := inputEl m; opened := false |}.

(** [renameBtn.onclick]. *)
Definition renameBtn_onclick (onRename : string → M unit) (m : RenameModal)
    : M RenameModal :=
  let newName := trim (inputEl m) in
  if truthy newName then
    onRename (newName +:+ ".mp3");;
    mret (submitted newName m)
  else mret m.

(** ** The revision of [src/main.ts] *)

(** [`Recording-${Date.now()}.mp3`] *)
Definition defaultName (now : N) : string :=
  "Recording-" +:+ NilEmpty.string_of_uint (N.to_uint now) +:+ ".mp3".

Module MainTs.
Section Host.

Variable isTypeSupported : string → bool.
Variable createBinary_replaces : bool.

(** [startRecording()] has no [try]: a rejected device request propagates. *)
Definition startRecording (answer : MediaAnswer) : M unit :=
  s ← getUserMedia answer;
  modify (λ w, set_this (mediaRecorder w) (audioChunks w) (Some s) w);;
  let selectedType := selectType isTypeSupported in
  mr ← new_MediaRecorder s selectedType;
  modify (λ w, set_this (Some mr) (audioChunks w) (stream w) w);;
  modify (λ w, set_this (mediaRecorder w) [] (stream w) w);;
  update_recorder mr with_ondataavailable;;
  MediaRecorder_start mr;;
  new_Notice "Recording started...".

(** The [onstop] handler: [this.stream?.getTracks().forEach(track =>
    track.stop())], the reference to the stream is kept. *)
Definition onstop (p : nat) : M unit :=
  chunks ← gets audioChunks;
  let audioBlob := new_Blob chunks "audio/mp3" in
  modify (λ w, set_this (mediaRecorder w) [] (stream w) w);;
  s ← gets stream;
  match s with
  | Some s => forEach track_stop (tracks s)
  | None => mret ()
  end;;
  resolve p audioBlob.

(** [stopRecording()]: [if (!this.mediaRecorder) return;] leaves the
    executor without calling [resolve]. *)
Definition stopRecording : M nat :=
  p ← new_Promise;
  mr ← gets mediaRecorder;
  match mr with
  | None => mret p
  | Some mr =>
      update_recorder mr (with_onstop p);;
      MediaRecorder_stop mr;;
      new_Notice "Recording stopped!";;
      mret p
  end.

(** [saveAudio(blob)]: the file name is derived from [Date.now()]. *)
Definition saveAudio (now : N) (blob : Blob) : M unit :=
  let audioDir := "Audio" in
  ex ← adapter_exists audioDir;
  (if ex : bool then mret () else createFolder audioDir);;
  let filename := defaultName now in
  let arrayBuffer := blob_bytes blob in
  createBinary createBinary_replaces (audioDir +:+ "/" +:+ filename) arrayBuffer;;
  new_Notice ("Saved: " +:+ filename).

(** Histories of this revision's wrapper. *)
Definition call (c : Call) : M unit :=
  match c with
  | Start answer => startRecording answer
  | Stop => _ ← stopRecording; mret ()
  | Data mr data => fire_dataavailable mr data
  | StopTask mr final => fire_stop onstop mr final
  end.

Definition calls (cs : list Call) (w : World) : World :=
  foldl (λ w c, (call c w).2) w cs.

End Host.
End MainTs.

(** ** [MyPlugin] (revision with the recording dialog) *)

(** A handler suspended at [await ...stopRecording()]: the ribbon's stop
    branch, or the recording dialog's callback with its file name. *)
Inductive Awaiter := RibbonStop | ModalStop (filename : string).

(** Plugin state after [onload]: the flag, whether the click handler has
    installed its callback in the recording dialog (before that the dialog
    holds the empty default), which dialogs are open, the click handlers
    suspended at [await this.recorder.startRecording()], the handlers
    suspended on a stop promise, and the world. *)
Record App := {
  isRecording : bool;
  onStopRecording : bool;
  recordingModalOpen : bool;
  playbackModalOpen : bool;
  awaitingMedia : nat;
  awaitingStop : list (nat * Awaiter);
  world : World
}.

Definition set_world (w : World) (a : App) : App :=
  {| isRecording := isRecording a; onStopRecording := onStopRecording a;
     recordingModalOpen := recordingModalOpen a;
     playbackModalOpen := playbackModalOpen a; awaitingMedia := awaitingMedia a;
     awaitingStop := awaitingStop a; world := w |}.

Definition set_isRecording (b : bool) (a : App) : App :=
  {| isRecording := b; onStopRecording := onStopRecording a;
     recordingModalOpen := recordingModalOpen a;
     playbackModalOpen := playbackModalOpen a; awaitingMedia := awaitingMedia a;
     awaitingStop := awaitingStop a; world := world a |}.

Definition set_modals (cb rec_open play_open : bool) (a : App) : App :=
  {| isRecording := isRecording a; onStopRecording := cb;
     recordingModalOpen := rec_open; playbackModalOpen := play_open;
     awaitingMedia := awaitingMedia a; awaitingStop := awaitingStop a;
     world := world a |}.

Definition set_awaiting (n : nat) (ks : list (nat * Awaiter)) (a : App) : App :=
  {| isRecording := isRecording a; onStopRecording := onStopRecording a;
     recordingModalOpen := recordingModalOpen a;
     playbackModalOpen := playbackModalOpen a; awaitingMedia := n;
     awaitingStop := ks; world := world a |}.

Definition onload (fo : gset string) (fi : gmap string (list Byte.byte)) : App :=
  {| isRecording := false; onStopRecording := false; recordingModalOpen := false;
     playbackModalOpen := false; awaitingMedia := 0; awaitingStop := [];
     world := fresh fo fi |}.

(** Run a recorder or vault computation inside the plugin. *)
Definition lift {A} (m : M A) : St App A := λ a,
  let '(r, w) := m (world a) in (r, set_world w a).

(** A handler whose promise rejects with nobody listening just ends. *)
Definition unhandled (m : St App unit) : St App unit :=
  try_catch m (λ _, mret ()).

Section Plugin.

Variable isTypeSupported : string → bool.
Variable createBinary_replaces : bool.

(** [this.recordingModal?.close(); this.playbackModal?.open();] *)
Definition close_and_open : St App unit :=
  modify (λ a, set_modals (onStopRecording a) false true a).

(** The ribbon's stop branch after [await this.recorder.stopRecording()];
    [audioBlob] is what the [await] produced, and [if (audioBlob)] lets
    every object through. *)
Definition ribbon_stopped (now : N) (audioBlob : option Blob) : St App unit :=
  match audioBlob with
  | Some blob =>
      let defaultName := defaultName now in
      lift (saveAudio createBinary_replaces blob defaultName);;
      close_and_open
  | None => mret ()
  end.

(** The recording dialog's callback after
    [await this.recorder?.stopRecording()]. *)
Definition modal_stopped (filename : string) (audioBlob : option Blob)
    : St App unit :=
  match audioBlob with
  | Some blob =>
      lift (saveAudio createBinary_replaces blob filename);;
      modify (set_isRecording false);;
      close_and_open
  | None => mret ()
  end.

Definition resume (now : N) (k : Awaiter) (value : Blob) : St App unit :=
  match k with
  | RibbonStop => ribbon_stopped now (Some value)
  | ModalStop filename => modal_stopped filename (Some value)
  end.

(** Handlers whose stop promise is settled continue, in the order they
    were suspended. *)
Fixpoint resume_all (now : N) (ks : list (nat * Awaiter)) : St App unit :=
  match ks with
  | [] => mret ()
  | (p, k) :: rest =>
      st ← gets (λ a, promises (world a) !! p);
      match st with
      | Some (fulfilled value) =>
          modify (λ a, set_awaiting (awaitingMedia a)
                         (filter (λ e, e.1 ≠ p) (awaitingStop a)) a);;
          unhandled (resume now k value);;
          resume_all now rest
      | _ => resume_all now rest
      end
  end.

Definition resume_settled (now : N) : St App unit :=
  ks ← gets awaitingStop;
  resume_all now ks.

Definition await_stop (k : Awaiter) (now : N) : St App unit :=
  p ← lift stopRecording;
  modify (λ a, set_awaiting (awaitingMedia a) (awaitingStop a ++ [(p, k)]) a);;
  resume_settled now.

(** The ribbon icon's click handler, up to its first suspension. *)
Definition ribbon_click (now : N) : St App unit :=
  modify (λ a, set_isRecording (negb (isRecording a)) a);;
  rec ← gets isRecording;
  if rec : bool then
    modify (λ a, set_awaiting (S (awaitingMedia a)) (awaitingStop a) a)
  else await_stop RibbonStop now.

(** The host answers one outstanding device request: [startRecording]
    finishes, then the click handler installs the dialog's callback and
    opens the dialog ([setupAnalyser] only draws). *)
Definition media_answered (answer : MediaAnswer) : St App unit :=
  n ← gets awaitingMedia;
  match n with
  | 0 => mret ()
  | S n' =>
      modify (λ a, set_awaiting n' (awaitingStop a) a);;
      _ ← lift (startRecording isTypeSupported answer);
      modify (λ a, set_modals true true (playbackModalOpen a) a)
  end.

(** [stopBtn.onclick] of the recording dialog. *)
Definition stopBtn_onclick (input : string) (now : N) : St App unit :=
  is_open ← gets recordingModalOpen;
  if is_open : bool then
    let filename := trim input in
    if truthy filename then
      cb ← gets onStopRecording;
      if cb : bool then await_stop (ModalStop (filename +:+ ".mp3")) now
      else mret ()
    else mret ()
  else mret ().

(** A chunk is delivered while recorder [mr] records. *)
Definition data_available (mr : nat) (data : Blob) : St App unit :=
  r ← gets (λ a, recorders (world a) !! mr);
  match r with
  | Some {| mr_state := recording |} => lift (fire_dataavailable mr data)
  | _ => mret ()
  end.

(** The task queued by [stop()] runs; handlers waiting for the promise
    it settles continue. *)
Definition stop_fired (mr : nat) (final : Blob) (now : N) : St App unit :=
  lift (fire_stop onstop mr final);;
  resume_settled now.

Inductive Event :=
| RibbonClick (now : N)
| MediaAnswered (answer : MediaAnswer)
| DataAvailable (mr : nat) (data : Blob)
| StopFired (mr : nat) (final : Blob) (now : N)
| StopAndSave (input : string) (now : N).

Definition handle (ev : Event) : St App unit :=
  match ev with
  | RibbonClick now => ribbon_click now
  | MediaAnswered answer => media_answered answer
  | DataAvailable mr data => data_available mr data
  | StopFired mr final now => stop_fired mr final now
  | StopAndSave input now => stopBtn_onclick input now
  end.

Definition step (a : App) (ev : Event) : App := (handle ev a).2.

Definition run (evs : list Event) (a : App) : App := foldl step a evs.

End Plugin.

(** The world after a granted [startRecording()]. *)
Definition started (f : string → bool) (s : MediaStream) (w : World) : World :=
  {| folders := folders w; files := files w; granted := granted w ++ [s];
     ended := ended w;
     recorders := recorders w ++
       [{| mr_stream := s; mr_mimeType := selectType f; mr_state := recording;
           mr_ondataavailable := true; mr_onstop := None;
           mr_stop_queued := false |}];
     promises := promises w; log := log w ++ [Notice "Recording started..."];
     mediaRecorder := Some (length (recorders w)); audioChunks := [];
     stream := Some s |}.


(** ** Predicates used in the statements *)

(** Promise [p] is pending and no recorder's [onstop] handler holds its
    [resolve]: nothing is left that could settle it. *)
Definition orphan (p : nat) (w : World) : Prop :=
  promises w !! p = Some pending
  ∧ Forall (λ r, mr_onstop r ≠ Some p) (recorders w).

(** The wrapper holds a capture session: recorder [mr] is recording from
    stream [s] with the chunk handler installed. *)
Definition active_session (w : World) (mr : nat) (s : MediaStream) : Prop :=
  mediaRecorder w = Some mr ∧ stream w = Some s
  ∧ ∃ r, recorders w !! mr = Some r
         ∧ mr_state r = recording ∧ mr_ondataavailable r = true.

(** The world after [stopRecording()] on a session whose recorder [r] was
    recording. *)
Definition stopping (mr : nat) (r : MediaRecorder) (w : World) : World :=
  set_log (log w ++ [Notice "Recording stopped!"])
    (set_recorders
       (<[mr := with_state inactive true (with_onstop (length (promises w)) r)]>
          (recorders w))
       (set_promises (promises w ++ [pending]) w)).

(** The world after the stop task has then delivered [final] and run
    [onstop]; [keep] tells whether the handler keeps [this.stream]
    ([src/main.ts]) or sets it to [null]. *)
Definition stopped (keep : bool) (mr : nat) (r : MediaRecorder) (s : MediaStream)
    (final : Blob) (w : World) : World :=
  let p := length (promises w) in
  let audioBlob := new_Blob (audioChunks w ++ [final]) "audio/mp3" in
  {| folders := folders w; files := files w; granted := granted w;
     ended := ended w ∪ list_to_set (tracks s);
     recorders := <[mr := with_state inactive false (with_onstop p r)]> (recorders w);
     promises := promises w ++ [fulfilled audioBlob];
     log := log w ++ [Notice "Recording stopped!"] ++ map TrackStop (tracks s)
                  ++ [Resolve p audioBlob];
     mediaRecorder := mediaRecorder w; audioChunks := [];
     stream := if keep then Some s else None |}.

(** What the handler of the stop event leaves behind when it runs from
    world [w] extended to buffer [cs] and ends in [w2]: promise [p]
    fulfilled with the chunks of [cs] in order, tagged audio/mp3; the buffer
    empty; every track of [s] ended; and, in the log, the tracks stopped
    before the promise is resolved. *)
Definition finished (w : World) (s : MediaStream) (cs : list Blob) (p : nat)
    (w2 : World) : Prop :=
  let audioBlob := new_Blob cs "audio/mp3" in
  promises w2 !! p = Some (fulfilled audioBlob)
  ∧ blob_bytes audioBlob = concat (map blob_bytes cs)
  ∧ blob_type audioBlob = "audio/mp3"
  ∧ audioChunks w2 = []
  ∧ (∀ t, t ∈ tracks s → t ∈ ended w2)
  ∧ stream_live w2 s = false
  ∧ log w2 = log w ++ [Notice "Recording stopped!"] ++ map TrackStop (tracks s)
                   ++ [Resolve p audioBlob].

(** [vault.getFiles()] with the bytes of each file, and the playback
    dialog's listing [getFiles().filter(file => file.path.startsWith("Audio/"))]. *)
Definition getFiles (w : World) : list (string * list Byte.byte) :=
  map_to_list (files w).

Definition audioFiles (w : World) : list (string * list Byte.byte) :=
  filter (λ e, startsWith e.1 "Audio/" = true) (getFiles w).

(** The world after a completed [saveAudio(blob, filename)]. *)
Definition saved (blob : Blob) (filename : string) (w : World) : World :=
  set_log (log w ++ [Notice ("Saved: " +:+ filename)])
    (set_vault
       (if bool_decide ("Audio" ∈ folders w) || bool_decide (is_Some (files w !! "Audio"))
        then folders w else folders w ∪ {["Audio"]})
       (<["Audio/" +:+ filename := blob_bytes blob]> (files w)) w).

(** The host takes the write to [p]: it replaces files, or [p] is free. *)
Definition write_accepted (createBinary_replaces : bool) (p : string) (w : World)
    : Prop :=
  createBinary_replaces = true ∨ files w !! p = None.

(** The notice the rename callback shows on a collision. *)
Definition collision_notice (newName : string) : Effect :=
  Notice ("Error: A file named " +:+ dquote +:+ newName +:+ dquote
          +:+ " already exists").

(** The destination of a rename to [newName] is taken in [w]. *)
Definition destination_exists (newName : string) (w : World) : Prop :=
  (adapter_exists ("Audio/" +:+ newName) w).1 = Normal true.

(** [stopRecording()] called in [w] takes the branch that resolves at once
    with [new Blob([])]. *)
Definition takes_empty_branch (w : World) : Prop :=
  promises (stopRecording w).2 !! length (promises w)
  = Some (fulfilled empty_Blob).

(** The file name a suspended handler saves under when it continues. *)
Definition target (now : N) (k : Awaiter) : string :=
  match k with
  | RibbonStop => defaultName now
  | ModalStop filename => filename
  end.

(** ** Proof automation *)

(** Unfolds the plumbing of the computations, leaving the host calls. *)
Ltac step_M :=
  cbv [mbind mret mthrow St_bind St_ret St_throw gets modify try_catch emit
       new_Notice console_error].

(** Unfolds the host calls as well. *)
Ltac run_M :=
  cbv [mbind mret mthrow St_bind St_ret St_throw gets modify try_catch emit
       new_Notice console_error update_recorder MediaRecorder_stop
       MediaRecorder_start new_Promise resolve new_MediaRecorder getUserMedia
       fire_dataavailable ondataavailable fire_stop adapter_exists createFolder
       vault_rename createBinary].

(** Case analysis on a scrutinee that contains no further [match]. *)
Ltac destruct_inner :=
  match goal with
  | |- context [match ?x with _ => _ end] =>
      lazymatch x with
      | context [match _ with _ => _ end] => fail
      | _ => destruct x eqn:?
      end
  end.


(** * The rest of the plugin *)

(** ** The playback dialog: deleting a recording *)

(** [vault.trash(file, true)]: the file leaves the vault; a file that is not
    there cannot be trashed. *)
Definition vault_trash (file : TFile) : M unit :=
  cur ← gets (λ w, files w !! path file);
  match cur with
  | None => mthrow "File not found."
  | Some _ => modify (λ w, set_vault (folders w) (delete (path file) (files w)) w)
  end.

(** [deleteBtn.onclick]: trash, notice, then [this.onOpen()]. *)
Definition deleteBtn_onclick (file : TFile) : M unit :=
  vault_trash file;;
  new_Notice ("Deleted: " +:+ name file);;
  emit PlaybackRefresh.

(** The handle the vault gives for a recording saved as [filename]. *)
Definition saved_file (filename : string) : TFile :=
  {| path := "Audio/" +:+ filename; name := filename |}.

(** ** Histories of one session *)

(** One recording on recorder [mr]: a granted start, the chunks the host
    delivers while recording, a stop, and the stop task with its last
    chunk. *)
Definition session (s : MediaStream) (chunks : list Blob) (final : Blob)
    (mr : nat) : list Call :=
  [Start (Granted s)] ++ map (Data mr) chunks ++ [Stop; StopTask mr final].

(** Recordings made one after the other, each on the recorder its start
    creates. *)
Fixpoint sessions (isTypeSupported : string → bool)
    (ss : list (MediaStream * list Blob * Blob)) (w : World) : World :=
  match ss with
  | [] => w
  | (s, chunks, final) :: rest =>
      sessions isTypeSupported rest
        (calls isTypeSupported (session s chunks final (length (recorders w))) w)
  end.

(** Promise [p] is pending, and a recorder whose [onstop] handler holds its
    [resolve] is inactive with no stop task queued. *)
Definition stranded (p : nat) (w : World) : Prop :=
  promises w !! p = Some pending
  ∧ Forall (λ r, mr_onstop r = Some p →
                 mr_state r = inactive ∧ mr_stop_queued r = false)
      (recorders w).

(** Every [onstop] handler holds the [resolve] of a promise that exists. *)
Definition handlers_exist (w : World) : Prop :=
  Forall (λ r, ∀ q, mr_onstop r = Some q → q < length (promises w)) (recorders w).

(** The world while a session started from [w] on stream [s] is recording,
    with [chunks] delivered so far. *)
Definition recording_with (isTypeSupported : string → bool) (s : MediaStream)
    (chunks : list Blob) (w : World) : World :=
  set_this (Some (length (recorders w))) chunks (Some s)
    (started isTypeSupported s w).

(** The recorder that [startRecording()] creates. *)
Definition started_recorder (isTypeSupported : string → bool) (s : MediaStream)
    : MediaRecorder :=
  {| mr_stream := s; mr_mimeType := selectType isTypeSupported;
     mr_state := recording; mr_ondataavailable := true; mr_onstop := None;
     mr_stop_queued := false |}.

(** Weakens the bound in [handlers_exist] when promises were added. *)
Ltac grow_handlers H :=
  eapply Forall_impl; [exact H|];
  let Hx := fresh in let Hq := fresh in
  intros ? Hx ? Hq; specialize (Hx _ Hq); simpl in *; lia.


(** ** Blank names *)

(** The string holds nothing but white space. *)
Fixpoint all_whitespace (s : string) : bool :=
  match s with
  | EmptyString => true
  | String c s' => isWhiteSpace c && all_whitespace s'
  end.

(** ** What the recording flow does to the vault *)

(** From [w] to [w'] no file outside "Audio/" has changed and no file at
    all has gone. *)
Definition keeps_other_files (w w' : World) : Prop :=
  (∀ p, startsWith p "Audio/" = false → files w' !! p = files w !! p)
  ∧ (∀ p, is_Some (files w !! p) → is_Some (files w' !! p)).

(** A plugin computation that, from any state, changes the vault in that
    way only. *)
Definition grows {A} (m : St App A) : Prop :=
  ∀ a, keeps_other_files (world a) (world (m a).2).

(** ** [MyPlugin.onunload()] (the same in both revisions) *)

(** [if (this.recorder && this.isRecording) this.recorder.stopRecording();
    if (this.playbackModal) this.playbackModal.close();]  The promise of
    that stop is dropped: nobody waits for it.  [stop] is the revision's
    [stopRecording]. *)
Definition onunload (stop : M nat) : St App unit :=
  rec ← gets isRecording;
  (if rec : bool then _ ← lift stop; mret () else mret ());;
  modify (λ a, set_modals (onStopRecording a) (recordingModalOpen a) false a).

(** ** [MyPlugin] of [src/main.ts]: the ribbon toggle

    The plugin state is the same record; this revision has no recording
    dialog, so [onStopRecording] and [recordingModalOpen] are never
    touched, and every suspended handler is a [RibbonStop]. *)
Module MainTsPlugin.
Section Plugin.

Variable isTypeSupported : string → bool.
Variable createBinary_replaces : bool.

(** The stop branch after [await this.recorder.stopRecording()]:
    [await this.saveAudio(audioBlob); if (this.playbackModal)
    this.playbackModal.open();] *)
Definition ribbon_stopped (now : N) (audioBlob : Blob) : St App unit :=
  lift (MainTs.saveAudio createBinary_replaces now audioBlob);;
  modify (λ a, set_modals (onStopRecording a) (recordingModalOpen a) true a).

Fixpoint resume_all (now : N) (ks : list (nat * Awaiter)) : St App unit :=
  match ks with
  | [] => mret ()
  | (p, k) :: rest =>
      st ← gets (λ a, promises (world a) !! p);
      match st with
      | Some (fulfilled value) =>
          modify (λ a, set_awaiting (awaitingMedia a)
                         (filter (λ e, e.1 ≠ p) (awaitingStop a)) a);;
          unhandled (ribbon_stopped now value);;
          resume_all now rest
      | _ => resume_all now rest
      end
  end.

Definition resume_settled (now : N) : St App unit :=
  ks ← gets awaitingStop;
  resume_all now ks.

(** The ribbon icon's click handler, up to its first suspension. *)
Definition ribbon_click (now : N) : St App unit :=
  modify (λ a, set_isRecording (negb (isRecording a)) a);;
  rec ← gets isRecording;
  if rec : bool then
    modify (λ a, set_awaiting (S (awaitingMedia a)) (awaitingStop a) a)
  else
    p ← lift MainTs.stopRecording;
    modify (λ a, set_awaiting (awaitingMedia a) (awaitingStop a ++ [(p, RibbonStop)]) a);;
    resume_settled now.

(** The host answers one outstanding device request and [startRecording]
    finishes; a rejection ends the click handler with nobody listening. *)
Definition media_answered (answer : MediaAnswer) : St App unit :=
  n ← gets awaitingMedia;
  match n with
  | 0 => mret ()
  | S n' =>
      modify (λ a, set_awaiting n' (awaitingStop a) a);;
      unhandled (lift (MainTs.startRecording isTypeSupported answer))
  end.

Definition data_available (mr : nat) (data : Blob) : St App unit :=
  r ← gets (λ a, recorders (world a) !! mr);
  match r with
  | Some {| mr_state := recording |} => lift (fire_dataavailable mr data)
  | _ => mret ()
  end.

Definition stop_fired (mr : nat) (final : Blob) (now : N) : St App unit :=
  lift (fire_stop MainTs.onstop mr final);;
  resume_settled now.

(** The events of this revision: [StopAndSave] has no dialog to come from
    and does nothing. *)
Definition handle (ev : Event) : St App unit :=
  match ev with
  | RibbonClick now => ribbon_click now
  | MediaAnswered answer => media_answered answer
  | DataAvailable mr data => data_available mr data
  | StopFired mr final now => stop_fired mr final now
  | StopAndSave _ _ => mret ()
  end.

Definition step (a : App) (ev : Event) : App := (handle ev a).2.

Definition run (evs : list Event) (a : App) : App := foldl step a evs.

End Plugin.
End MainTsPlugin.

(** A click handler of [src/main.ts] suspended for good: it waits for
    promise [p], which nothing is left to settle. *)
Definition hung (p : nat) (a : App) : Prop :=
  orphan p (world a) ∧ (p, RibbonStop) ∈ awaitingStop a.

(** ** Histories with the device request and its answer apart

    [startRecording()] suspends at [await getUserMedia(...)] before it
    touches the wrapper, and the host answers later; other calls and events
    can come in between.  [StartCalled] is the call; [Then (Start answer)]
    is the host's answer to a call still waiting, with which that call
    runs on; the other steps are those of [Call]. *)
Inductive Action :=
| StartCalled
| Then (c : Call).

(** The wrapper with the number of its [startRecording()] calls that wait
    for the device. *)
Record Wrapper := { waiting : nat; wrapper_world : World }.

Definition new_AudioRecorder (fo : gset string) (fi : gmap string (list Byte.byte))
    : Wrapper :=
  {| waiting := 0; wrapper_world := fresh fo fi |}.

(** An answer with no call waiting for it has nothing to resume. *)
Definition act (isTypeSupported : string → bool) (x : Wrapper) (a : Action)
    : Wrapper :=
  match a with
  | StartCalled => {| waiting := S (waiting x); wrapper_world := wrapper_world x |}
  | Then (Start answer) =>
      match waiting x with
      | 0 => x
      | S n =>
          {| waiting := n;
             wrapper_world := (call isTypeSupported (Start answer) (wrapper_world x)).2 |}
      end
  | Then c =>
      {| waiting := waiting x;
         wrapper_world := (call isTypeSupported c (wrapper_world x)).2 |}
  end.

Definition acts (isTypeSupported : string → bool) (h : list Action) (x : Wrapper)
    : Wrapper :=
  foldl (act isTypeSupported) x h.

(** Every answer in [h] finds a call waiting for it, [n] calls waiting at
    the beginning. *)
Fixpoint answers_follow_calls (n : nat) (h : list Action) : bool :=
  match h with
  | [] => true
  | StartCalled :: h' => answers_follow_calls (S n) h'
  | Then (Start _) :: h' =>
      match n with
      | 0 => false
      | S n' => answers_follow_calls n' h'
      end
  | Then _ :: h' => answers_follow_calls n h'
  end.
(** * Properties *)

(** ** The model on concrete inputs *)

Example trim_example : trim "  take 2 " = "take 2".
Proof. reflexivity. Qed.

Example defaultName_example :
  defaultName 1700000000000 = "Recording-1700000000000.mp3".
Proof. reflexivity. Qed.

Example selectType_webm_only :
  selectType (λ t, bool_decide (t = "audio/webm")) = "audio/webm".
Proof. reflexivity. Qed.

(** One recording from click to saved file: the bytes the host delivers
    with the stop task end up under the name typed into the dialog, the
    flag is back to [false] and no stream is left live. *)
Example record_and_save :
  let s := {| stream_id := 1; tracks := [10] |} in
  let final := {| blob_bytes := [Byte.x49; Byte.x44; Byte.x33];
                  blob_type := "audio/webm" |} in
  let a := run (λ _, false) false
             [RibbonClick 1; MediaAnswered (Granted s); StopAndSave " memo " 2;
              StopFired 0 final 3]
             (onload ∅ ∅) in
  files (world a) !! "Audio/memo.mp3" = Some [Byte.x49; Byte.x44; Byte.x33]
  ∧ isRecording a = false ∧ live_streams (world a) = []
  ∧ log (world a) = [Notice "Recording started..."; Notice "Recording stopped!";
                     TrackStop 10;
                     Resolve 0 {| blob_bytes := [Byte.x49; Byte.x44; Byte.x33];
                                  blob_type := "audio/mp3" |};
                     Notice "Saved: memo.mp3"].
Proof. by vm_compute. Qed.

Lemma lookup_snoc_length {A} (l : list A) (x : A) :
  (l ++ [x]) !! length l = Some x.
Proof. by rewrite lookup_app_r, Nat.sub_diag. Qed.

Lemma alter_snoc_length {A} (f : A → A) (l : list A) (x : A) :
  alter f (length l) (l ++ [x]) = l ++ [f x].
Proof. induction l as [|y l IH]; simpl; [done|]. by f_equal. Qed.

Lemma insert_snoc_length {A} (l : list A) (x y : A) :
  <[length l := y]> (l ++ [x]) = l ++ [y].
Proof. induction l as [|z l IH]; simpl; [done|]. by f_equal. Qed.

(** ** Starting a capture session *)

Lemma startRecording_granted f s w :
  startRecording f (Granted s) w = (Normal (Some s), started f s w).
Proof.
  unfold startRecording, getUserMedia, new_MediaRecorder, MediaRecorder_start,
    update_recorder, started.
  step_M. simpl.
  rewrite alter_snoc_length, lookup_snoc_length. simpl.
  by rewrite alter_snoc_length.
Qed.

Lemma MainTs_startRecording_granted f s w :
  MainTs.startRecording f (Granted s) w = (Normal (), started f s w).
Proof.
  unfold MainTs.startRecording, getUserMedia, new_MediaRecorder,
    MediaRecorder_start, update_recorder, started.
  step_M. simpl.
  rewrite alter_snoc_length, lookup_snoc_length. simpl.
  by rewrite alter_snoc_length.
Qed.

(** The loop returns the first entry the host supports, and the initial
    value when there is none. *)
Lemma select_loop_first (f : string → bool) (types : list string) (d : string) :
  select_loop f types d
  = match list_find (λ t, f t = true) types with
    | Some (_, t) => t
    | None => d
    end.
Proof.
  induction types as [|t types IH]; [done|].
  cbn [select_loop list_find]. destruct (f t) eqn:Hft.
  - by rewrite decide_True.
  - rewrite decide_False by done. rewrite IH.
    by destruct (list_find _ types) as [[i u]|].
Qed.

(** C2. Whatever the host supports, the selection is the first supported
    entry of audio/mp3, audio/mpeg, audio/webm;codecs=opus, audio/webm, in
    that order, and the empty string when none is; a granted
    [startRecording()] hands exactly that selection to the recorder
    constructor and completes without throwing, in both revisions. *)
Theorem selectType_first_supported (isTypeSupported : string → bool) :
  selectType isTypeSupported
  = match list_find (λ t, isTypeSupported t = true)
            ["audio/mp3"; "audio/mpeg"; "audio/webm;codecs=opus"; "audio/webm"]
    with
    | Some (_, t) => t
    | None => ""
    end
  ∧ selectType isTypeSupported =
      (if isTypeSupported "audio/mp3" then "audio/mp3"
       else if isTypeSupported "audio/mpeg" then "audio/mpeg"
       else if isTypeSupported "audio/webm;codecs=opus" then "audio/webm;codecs=opus"
       else if isTypeSupported "audio/webm" then "audio/webm"
       else "")
  ∧ ∀ (s : MediaStream) (w : World),
      ∃ w' r,
        startRecording isTypeSupported (Granted s) w = (Normal (Some s), w')
        ∧ MainTs.startRecording isTypeSupported (Granted s) w = (Normal (), w')
        ∧ recorders w' = recorders w ++ [r]
        ∧ mr_mimeType r = selectType isTypeSupported
        ∧ mr_stream r = s
        ∧ mr_state r = recording.
Proof.
  split; [apply select_loop_first|]. split; [reflexivity|].
  intros s w. eexists _, _.
  rewrite startRecording_granted, MainTs_startRecording_granted.
  repeat split; reflexivity.
Qed.

(** ** The rename dialog *)

Lemma append_assoc (a b c : string) : (a +:+ b) +:+ c = a +:+ (b +:+ c).
Proof.
  induction a as [|x a IH]; [done|].
  change (String x ((a +:+ b) +:+ c) = String x (a +:+ (b +:+ c))).
  by rewrite IH.
Qed.

(** Leading white space is taken from the file name only: the dot that
    starts the suffix stops the scan. *)
Lemma trimStart_mp3 (n : string) : trimStart (n +:+ ".mp3") = trimStart n +:+ ".mp3".
Proof.
  induction n as [|c n IH]; [done|].
  change (String c n +:+ ".mp3") with (String c (n +:+ ".mp3")).
  cbn [trimStart]. destruct (isWhiteSpace c); [exact IH | done].
Qed.

(** Nothing is taken from the end of a string that ends in [".mp3"]. *)
Lemma trimEnd_mp3 (stem : string) : trimEnd (stem +:+ ".mp3") = stem +:+ ".mp3".
Proof.
  induction stem as [|c stem IH]; [done|].
  change (String c stem +:+ ".mp3") with (String c (stem +:+ ".mp3")).
  cbn [trimEnd]. rewrite IH. by destruct stem.
Qed.

Lemma trim_prefill (n : string) : trim (n +:+ ".mp3") = trimStart n +:+ ".mp3".
Proof. unfold trim. by rewrite trimStart_mp3, trimEnd_mp3. Qed.

Lemma truthy_append_mp3 (stem : string) : truthy (stem +:+ ".mp3") = true.
Proof. by destruct stem. Qed.

(** C10. Whatever the trimmed, non-empty input [s] is, the rename callback
    is called with exactly [s] followed by [".mp3"]; and when the dialog is
    submitted as opened, pre-filled with the file's name plus [".mp3"], the
    callback is called with a name that ends in [".mp3.mp3"]. *)
Theorem rename_appends_suffix (onRename : string → M unit) :
  (∀ (m : RenameModal) (s : string),
     trim (inputEl m) = s → s ≠ "" →
     renameBtn_onclick onRename m
     = (onRename (s +:+ ".mp3");; mret (submitted s m)))
  ∧ (∀ f : TFile,
       let m := RenameModal_onOpen (new_RenameModal f) in
       let stem := trimStart (name f) in
       renameBtn_onclick onRename m
       = (onRename (stem +:+ ".mp3.mp3");; mret (submitted (stem +:+ ".mp3") m))).
Proof.
  split.
  - intros m s <- Hs. unfold renameBtn_onclick.
    destruct (trim (inputEl m)); [done|reflexivity].
  - intros f m stem. unfold renameBtn_onclick. subst m stem. simpl.
    rewrite trim_prefill, truthy_append_mp3, append_assoc. reflexivity.
Qed.

Lemma rename_appends_suffix_witness :
  let f := {| path := "Audio/memo.mp3"; name := "memo.mp3" |} in
  let m := type_input "  take 2 " (RenameModal_onOpen (new_RenameModal f)) in
  renameBtn_onclick (rename_callback f) m
  = (rename_callback f "take 2.mp3";; mret (submitted "take 2" m)).
Proof.
  intros f m.
  apply (proj1 (rename_appends_suffix (rename_callback f)) m "take 2");
    [reflexivity | discriminate].
Defined.

(** ** Stopping without a session *)

(** With no media recorder, [stopRecording()] settles its promise at once
    with the empty object and touches nothing else. *)
Lemma stopRecording_idle (w : World) :
  mediaRecorder w = None →
  stopRecording w =
    (Normal (length (promises w)),
     set_log (log w ++ [Resolve (length (promises w)) empty_Blob])
       (set_promises (promises w ++ [fulfilled empty_Blob]) w)).
Proof.
  intros Hmr. unfold stopRecording, new_Promise, resolve. step_M. simpl.
  rewrite Hmr. simpl. rewrite lookup_snoc_length. simpl.
  by rewrite insert_snoc_length.
Qed.

(** In [src/main.ts] the promise is created and left alone. *)
Lemma MainTs_stopRecording_idle (w : World) :
  mediaRecorder w = None →
  MainTs.stopRecording w =
    (Normal (length (promises w)), set_promises (promises w ++ [pending]) w).
Proof.
  intros Hmr. unfold MainTs.stopRecording, new_Promise. step_M. simpl.
  by rewrite Hmr.
Qed.

(** ** A denied device request *)

Lemma startRecording_denied f message w :
  startRecording f (Denied message) w =
    (Normal None,
     set_log (log w ++ [ConsoleError ("Error starting recording: " +:+ message);
                        Notice ("Failed to start recording: " +:+ message)]) w).
Proof.
  unfold startRecording, getUserMedia. step_M. simpl.
  by rewrite <- app_assoc.
Qed.

Lemma MainTs_startRecording_denied f message w :
  MainTs.startRecording f (Denied message) w = (Throw message, w).
Proof. reflexivity. Qed.

Lemma track_stop_eq (t : nat) (w : World) :
  track_stop t w =
    (Normal (),
     set_log (log w ++ [TrackStop t]) (set_media (granted w) (ended w ∪ {[t]}) w)).
Proof. reflexivity. Qed.

(** Stopping the tracks of a stream: all of them end, in order. *)
Lemma forEach_track_stop (ts : list nat) (w : World) :
  forEach track_stop ts w =
    (Normal (),
     set_log (log w ++ map TrackStop ts)
       (set_media (granted w) (ended w ∪ list_to_set ts) w)).
Proof.
  revert w. induction ts as [|t ts IH]; intros w.
  - destruct w. unfold set_log, set_media. simpl.
    by rewrite app_nil_r, (right_id_L ∅ (∪)).
  - cbn [forEach]. unfold mbind, St_bind. rewrite track_stop_eq, IH.
    unfold set_log, set_media. simpl.
    by rewrite <- app_assoc, <- (assoc_L (∪)).
Qed.

(** An orphan promise stays one, whatever is called on the wrapper of the
    revision of [src/main.ts] and whatever the recorders fire. *)
Lemma orphan_call f p c w : orphan p w → orphan p ((MainTs.call f c w).2).
Proof.
  intros [Hp Hr].
  assert (Hlt : p ≠ length (promises w)).
  { apply lookup_lt_Some in Hp. lia. }
  destruct c as [[s|msg]| |mr data|mr final]; simpl.
  - rewrite MainTs_startRecording_granted. split; simpl; [done|].
    apply Forall_app; split; [done|]. by repeat constructor.
  - done.
  - unfold MainTs.stopRecording. run_M. simpl.
    repeat (destruct_inner; simpl);
      (split; simpl; [by apply lookup_app_l_Some |]);
      repeat (apply Forall_alter; [|by (intros ? _ ?; simpl; congruence)]); done.
  - run_M. repeat (destruct_inner; simpl); done.
  - unfold MainTs.onstop. run_M. simpl.
    destruct (recorders w !! mr) as [[st mime state oda h q]|] eqn:Hmr; [|done].
    assert (Hh : h ≠ Some p).
    { apply (Forall_lookup_1 _ _ _ _ Hr Hmr). }
    destruct q; [|done]. simpl.
    repeat (rewrite ?forEach_track_stop; simpl; destruct_inner; simpl);
      rewrite ?forEach_track_stop; simpl;
      repeat (destruct_inner; simpl);
      (split; simpl;
       [ rewrite ?list_lookup_insert_ne by congruence; done
       | repeat (apply Forall_alter; [|by (intros ? _ ?; simpl; congruence)]); done ]).
Qed.

Lemma orphan_calls f p cs w : orphan p w → orphan p (MainTs.calls f cs w).
Proof.
  revert w. induction cs as [|c cs IH]; intros w Hw; [done|].
  apply IH. by apply orphan_call.
Qed.

(** C1. On a wrapper whose [startRecording()] has never run, so that it
    holds no recorder and the host has made none, [stopRecording()] of the
    revision with the recording dialog returns, without throwing, a promise
    that is already fulfilled with the zero-length object; the revision of
    [src/main.ts] returns a promise that nothing will ever settle, whatever
    is called or fired afterwards. *)
Theorem stop_without_start (f : string → bool) (w : World) :
  mediaRecorder w = None → recorders w = [] →
  let p := length (promises w) in
  (stopRecording w).1 = Normal p
  ∧ promises (stopRecording w).2 !! p = Some (fulfilled empty_Blob)
  ∧ blob_size empty_Blob = 0
  ∧ (MainTs.stopRecording w).1 = Normal p
  ∧ ∀ cs, promises (MainTs.calls f cs (MainTs.stopRecording w).2) !! p
          = Some pending.
Proof.
  intros Hmr Hrs p. rewrite stopRecording_idle, MainTs_stopRecording_idle by done.
  simpl. split; [done|]. split; [apply lookup_snoc_length|].
  split; [done|]. split; [done|]. intros cs.
  apply (orphan_calls f p cs). split; simpl.
  - apply lookup_snoc_length.
  - rewrite Hrs. constructor.
Qed.

Lemma stop_without_start_witness :
  let w := fresh ∅ ∅ in
  promises (stopRecording w).2 !! 0 = Some (fulfilled empty_Blob)
  ∧ promises (MainTs.calls (λ _, true) [Start (Denied "NotAllowedError"); Stop]
                (MainTs.stopRecording w).2) !! 0 = Some pending.
Proof.
  intros w.
  destruct (stop_without_start (λ _, true) w eq_refl eq_refl)
    as (_ & H1 & _ & _ & H2).
  split; [exact H1 | exact (H2 _)].
Defined.

(** C5. A denied device request: the revision with the recording dialog
    catches it, reports it in a notice, returns [null] and leaves the
    recorder reference, the stream and the host's recorders and streams as
    they were; the revision of [src/main.ts] lets the rejection propagate
    without any notice. *)
Theorem device_access_denied (f : string → bool) (message : string) (w : World) :
  (∃ w', startRecording f (Denied message) w = (Normal None, w')
         ∧ log w' = log w ++
             [ConsoleError ("Error starting recording: " +:+ message);
              Notice ("Failed to start recording: " +:+ message)]
         ∧ mediaRecorder w' = mediaRecorder w ∧ stream w' = stream w
         ∧ audioChunks w' = audioChunks w
         ∧ recorders w' = recorders w ∧ granted w' = granted w)
  ∧ MainTs.startRecording f (Denied message) w = (Throw message, w).
Proof.
  split; [|reflexivity].
  eexists. rewrite startRecording_denied. repeat split.
Qed.

(** ** Stopping a session *)

Lemma alter_lookup {A} (f : A → A) (l : list A) (i : nat) (x : A) :
  l !! i = Some x → alter f i l = <[i := f x]> l.
Proof.
  revert i. induction l as [|y l IH]; intros [|i] Hi; simplify_eq/=; [done|].
  f_equal. by apply IH.
Qed.

Lemma alter_insert_eq {A} (f : A → A) (l : list A) (i : nat) (x : A) :
  alter f i (<[i := x]> l) = <[i := f x]> l.
Proof.
  revert i. induction l as [|y l IH]; intros [|i]; simpl; try done.
  f_equal. apply IH.
Qed.

Lemma stopRecording_session (w : World) (mr : nat) (r : MediaRecorder) :
  mediaRecorder w = Some mr → recorders w !! mr = Some r →
  mr_state r = recording →
  stopRecording w = (Normal (length (promises w)), stopping mr r w)
  ∧ MainTs.stopRecording w = (Normal (length (promises w)), stopping mr r w).
Proof.
  intros Hmr Hr Hst.
  assert (Hlt : mr < length (recorders w)) by by eapply lookup_lt_Some.
  unfold stopRecording, MainTs.stopRecording, stopping. run_M. simpl.
  rewrite Hmr. simpl.
  rewrite (alter_lookup _ _ _ _ Hr), list_lookup_insert_eq by done.
  destruct r as [st mime state oda h q]. simpl in *. subst state. simpl.
  by rewrite alter_insert_eq.
Qed.

Lemma fire_stop_session (w : World) (mr : nat) (r : MediaRecorder)
    (s : MediaStream) (final : Blob) :
  recorders w !! mr = Some r → mr_ondataavailable r = true →
  stream w = Some s →
  fire_stop onstop mr final (stopping mr r w)
    = (Normal (), stopped false mr r s final w)
  ∧ fire_stop MainTs.onstop mr final (stopping mr r w)
    = (Normal (), stopped true mr r s final w).
Proof.
  intros Hr Hoda Hs.
  assert (Hlt : mr < length (recorders w)) by by eapply lookup_lt_Some.
  unfold onstop, MainTs.onstop, stopping, stopped. run_M. simpl.
  rewrite list_lookup_insert_eq by done. simpl.
  rewrite alter_insert_eq, list_lookup_insert_eq by done.
  destruct r as [st mime state oda h q]. simpl in *. subst oda. simpl.
  rewrite Hs, forEach_track_stop. simpl.
  rewrite lookup_snoc_length. simpl. rewrite insert_snoc_length.
  rewrite <- !app_assoc. done.
Qed.

Lemma stopped_finished keep mr r s final w :
  finished w s (audioChunks w ++ [final]) (length (promises w))
    (stopped keep mr r s final w).
Proof.
  unfold finished, stopped. simpl. repeat split.
  - apply lookup_snoc_length.
  - intros t Ht. set_solver.
  - unfold stream_live. simpl. apply not_true_is_false.
    rewrite existsb_exists. intros (t & Ht%list_elem_of_In & Hlive).
    rewrite bool_decide_eq_true_2 in Hlive by set_solver. done.
Qed.

(** C6. On an active session, [stopRecording()] returns a pending promise;
    when the stop task then runs, with [cs] the chunks buffered at that
    moment (those pushed so far followed by the chunk the task delivers),
    the promise is fulfilled with the bytes of [cs] in buffer order tagged
    audio/mp3, the buffer is empty, and every track of the stream has been
    stopped before the promise is resolved.  Both revisions. *)
Theorem stop_concatenates (w : World) (mr : nat) (s : MediaStream) (final : Blob) :
  active_session w mr s →
  let p := length (promises w) in
  let cs := audioChunks w ++ [final] in
  ∃ w1 w2 w2',
    stopRecording w = (Normal p, w1)
    ∧ MainTs.stopRecording w = (Normal p, w1)
    ∧ promises w1 !! p = Some pending
    ∧ fire_stop onstop mr final w1 = (Normal (), w2)
    ∧ finished w s cs p w2
    ∧ fire_stop MainTs.onstop mr final w1 = (Normal (), w2')
    ∧ finished w s cs p w2'.
Proof.
  intros (Hmr & Hs & r & Hr & Hst & Hoda) p cs.
  destruct (stopRecording_session w mr r Hmr Hr Hst) as [E1 E1'].
  destruct (fire_stop_session w mr r s final Hr Hoda Hs) as [E2 E2'].
  exists (stopping mr r w), (stopped false mr r s final w),
    (stopped true mr r s final w).
  repeat split; try done; try apply stopped_finished.
  unfold stopping. simpl. apply lookup_snoc_length.
Qed.

Lemma stop_concatenates_witness :
  let s := {| stream_id := 1; tracks := [7; 8] |} in
  let chunk := {| blob_bytes := [Byte.x49; Byte.x44]; blob_type := "audio/webm" |} in
  let final := {| blob_bytes := [Byte.x33]; blob_type := "audio/webm" |} in
  let w := (fire_dataavailable 0 chunk (started (λ _, false) s (fresh ∅ ∅))).2 in
  active_session w 0 s
  ∧ ∃ w1 w2,
      stopRecording w = (Normal 0, w1)
      ∧ fire_stop onstop 0 final w1 = (Normal (), w2)
      ∧ finished w s [chunk; final] 0 w2.
Proof.
  intros s chunk final w.
  assert (Hw : active_session w 0 s).
  { repeat split. eexists. repeat split. }
  split; [exact Hw|].
  destruct (stop_concatenates w 0 s final Hw) as (w1 & w2 & _ & H1 & _ & _ & H2 & H3 & _).
  exists w1, w2. split; [exact H1 | split; [exact H2 | exact H3]].
Defined.

(** ** The save routine *)

Lemma saveAudio_accepted replaces blob filename w :
  write_accepted replaces ("Audio/" +:+ filename) w →
  saveAudio replaces blob filename w = (Normal (), saved blob filename w).
Proof.
  intros Hacc. unfold saveAudio, saved. run_M. simpl.
  change ("Audio" +:+ "/" +:+ filename) with ("Audio/" +:+ filename).
  destruct (bool_decide ("Audio" ∈ folders w) || bool_decide (is_Some (files w !! "Audio")))
    eqn:Hex; simpl; rewrite ?Hex; simpl;
    (destruct (files w !! ("Audio/" +:+ filename)) eqn:Hcur; simpl; [|done];
     destruct Hacc as [-> | ?]; [done | congruence]).
Qed.

Lemma MainTs_saveAudio_eq replaces now blob :
  MainTs.saveAudio replaces now blob = saveAudio replaces blob (defaultName now).
Proof. reflexivity. Qed.


Lemma prefix_append (p s : string) : String.prefix p (p +:+ s) = true.
Proof.
  induction p as [|a p IH]; [by destruct s|].
  change (String a p +:+ s) with (String a (p +:+ s)). cbn [String.prefix].
  destruct (ascii_dec a a); [exact IH | done].
Qed.

Lemma startsWith_Audio (filename : string) :
  startsWith ("Audio/" +:+ filename) "Audio/" = true.
Proof. apply prefix_append. Qed.






(** ** The rename callback *)

Lemma rename_callback_collision (file : TFile) (newName : string) (w : World) :
  newName ≠ "" → newName ≠ name file → destination_exists newName w →
  rename_callback file newName w
  = (Normal (), set_log (log w ++ [collision_notice newName]) w).
Proof.
  intros Hne Hname Hex. unfold rename_callback, destination_exists in *.
  rewrite bool_decide_eq_true_2 by done.
  destruct newName; [done|]. cbn [truthy andb].
  unfold mbind, St_bind.
  destruct (adapter_exists _ w) as [c w'] eqn:E. simpl in Hex. subst c.
  assert (w' = w) as -> by (unfold adapter_exists, gets in E; congruence).
  reflexivity.
Qed.

Lemma rename_callback_same_name (file : TFile) (w : World) :
  rename_callback file (name file) w = (Normal (), w).
Proof.
  unfold rename_callback. rewrite bool_decide_eq_false_2 by (by intros []).
  by rewrite andb_false_r.
Qed.

(** C3, as the claim states it, fails: asked to rename "Audio/a.mp3" to
    the name it already has, the callback finds the destination taken, yet
    says nothing. *)
Lemma rename_to_own_name_is_silent :
  ¬ (∀ (file : TFile) (newName : string) (w : World),
       destination_exists newName w →
       ∃ w', rename_callback file newName w = (Normal (), w')
             ∧ log w' = log w ++ [collision_notice newName]
             ∧ files w' = files w ∧ folders w' = folders w).
Proof.
  intros H.
  destruct (H {| path := "Audio/a.mp3"; name := "a.mp3" |} "a.mp3"
              (fresh {["Audio"]} {["Audio/a.mp3" := [Byte.x49]]}))
    as (w' & Hrun & Hlog & _).
  - by vm_compute.
  - rewrite rename_callback_same_name in Hrun. by simplify_eq.
Qed.

(** C3, amended. When the destination "Audio/<newName>" exists, the
    callback completes without touching the vault: folders and files, so
    the original file and the destination, are as before, and nothing is
    renamed.  If the new name is not empty and differs from the file's
    current name, the collision notice is the one thing added to the log;
    if it is the file's current name, nothing at all happens. *)
Theorem rename_collision (file : TFile) (newName : string) (w : World) :
  destination_exists newName w →
  ∃ w',
    rename_callback file newName w = (Normal (), w')
    ∧ files w' = files w ∧ folders w' = folders w
    ∧ (newName ≠ "" → newName ≠ name file →
       log w' = log w ++ [collision_notice newName])
    ∧ (newName = name file → w' = w).
Proof.
  intros Hex.
  destruct (decide (newName = name file)) as [->|Hname].
  { exists w. rewrite rename_callback_same_name. by repeat split. }
  destruct (decide (newName = "")) as [->|Hne].
  { exists w. by repeat split. }
  exists (set_log (log w ++ [collision_notice newName]) w).
  rewrite rename_callback_collision by done. by repeat split.
Qed.

Lemma rename_collision_witness :
  let file := {| path := "Audio/a.mp3"; name := "a.mp3" |} in
  let w := fresh {["Audio"]}
             {["Audio/a.mp3" := [Byte.x49]; "Audio/b.mp3" := [Byte.x44]]} in
  ∃ w', rename_callback file "b.mp3" w = (Normal (), w')
        ∧ files w' = files w
        ∧ log w' = [collision_notice "b.mp3"].
Proof.
  intros file w.
  destruct (rename_collision file "b.mp3" w) as (w' & Hrun & Hfiles & _ & Hlog & _).
  - by vm_compute.
  - exists w'. split; [exact Hrun|]. split; [exact Hfiles|].
    by apply Hlog.
Defined.

(** ** Which [stopRecording()] takes the empty-object branch *)

(** Only a granted [startRecording()] changes the recorder reference. *)
Lemma mediaRecorder_call f c w :
  mediaRecorder (call f c w).2
  = match c with
    | Start (Granted _) => Some (length (recorders w))
    | _ => mediaRecorder w
    end.
Proof.
  destruct c as [[s|msg]| |mr data|mr final]; unfold call.
  - unfold mbind, St_bind. by rewrite startRecording_granted.
  - unfold mbind, St_bind. by rewrite startRecording_denied.
  - unfold stopRecording. run_M. simpl.
    repeat (destruct_inner; simpl); done.
  - run_M. repeat (destruct_inner; simpl); done.
  - unfold onstop. run_M. simpl.
    destruct (recorders w !! mr) as [[st mime state oda h []]|]; simpl; try done.
    repeat (rewrite ?forEach_track_stop; simpl; destruct_inner; simpl);
      rewrite ?forEach_track_stop; simpl; repeat (destruct_inner; simpl); done.
Qed.

Lemma mediaRecorder_calls f cs w :
  mediaRecorder (calls f cs w) = None
  ↔ mediaRecorder w = None ∧ ∀ s, Start (Granted s) ∉ cs.
Proof.
  revert w. induction cs as [|c cs IH]; intros w.
  - split; [intros H; split; [done|] | by intros [? _]].
    intros s Hs. by apply elem_of_nil in Hs.
  - change (calls f (c :: cs) w) with (calls f cs (call f c w).2).
    rewrite IH, mediaRecorder_call. split.
    + intros [Hc Hcs]. destruct c as [[s|msg]| | |]; try done;
        (split; [done|]; intros s' [|]%elem_of_cons; [done | by eapply Hcs]).
    + intros [Hw Hcs]. split.
      * destruct c as [[s|msg]| | |]; try done.
        exfalso. apply (Hcs s). left.
      * intros s Hs. apply (Hcs s). by right.
Qed.

(** With a recorder reference, the promise is pending on return. *)
Lemma stopRecording_pending (w : World) (mr : nat) :
  mediaRecorder w = Some mr →
  promises (stopRecording w).2 !! length (promises w) = Some pending.
Proof.
  intros Hmr. unfold stopRecording. run_M. simpl. rewrite Hmr. simpl.
  repeat (destruct_inner; simpl); apply lookup_snoc_length.
Qed.

Lemma takes_empty_branch_iff (w : World) :
  takes_empty_branch w ↔ mediaRecorder w = None.
Proof.
  unfold takes_empty_branch. split.
  - intros H. destruct (mediaRecorder w) as [mr|] eqn:Hmr; [|done].
    by rewrite (stopRecording_pending w mr Hmr) in H.
  - intros Hmr. rewrite stopRecording_idle by done. simpl.
    apply lookup_snoc_length.
Qed.

(** C9, as the claim states it, fails: after a [startRecording()] that was
    denied, [stopRecording()] still resolves with the zero-length object. *)
Lemma stop_after_denied_start_resolves_empty :
  ¬ (∀ (f : string → bool) (cs : list Call),
       takes_empty_branch (calls f cs (fresh ∅ ∅)) → ∀ answer, Start answer ∉ cs).
Proof.
  intros H.
  apply (H (λ _, true) [Start (Denied "Permission denied")] eq_refl
           (Denied "Permission denied")).
  left.
Qed.

(** A whole cycle on the wrapper: granted start, stop, stop task. *)
Lemma cycle_eq f s final w :
  calls f [Start (Granted s); Stop; StopTask (length (recorders w)) final] w
  = stopped false (length (recorders w))
      {| mr_stream := s; mr_mimeType := selectType f; mr_state := recording;
         mr_ondataavailable := true; mr_onstop := None; mr_stop_queued := false |}
      s final (started f s w).
Proof.
  unfold calls. cbn [foldl call]. unfold mbind, St_bind, mret, St_ret.
  rewrite startRecording_granted. cbn [snd].
  set (r := {| mr_stream := s; mr_mimeType := selectType f |}).
  assert (Hr : recorders (started f s w) !! length (recorders w) = Some r)
    by apply lookup_snoc_length.
  destruct (stopRecording_session (started f s w) _ r eq_refl Hr eq_refl) as [-> _].
  cbn [snd].
  destruct (fire_stop_session (started f s w) _ r s final Hr eq_refl eq_refl)
    as [-> _].
  reflexivity.
Qed.

(** With the call and the answer apart: only an answer that grants the
    device to a waiting call sets the recorder reference. *)
Lemma mediaRecorder_acts f h x :
  answers_follow_calls (waiting x) h = true →
  mediaRecorder (wrapper_world (acts f h x)) = None
  ↔ mediaRecorder (wrapper_world x) = None ∧ ∀ s, Then (Start (Granted s)) ∉ h.
Proof.
  revert x. induction h as [|a h IH]; intros x Hwf.
  - split; [intros H; split; [done|] | by intros [? _]].
    intros s Hs. by apply elem_of_nil in Hs.
  - change (acts f (a :: h) x) with (acts f h (act f x a)).
    destruct a as [|c].
    + rewrite (IH (act f x StartCalled)) by exact Hwf. cbn [act wrapper_world].
      split; (intros [Hx Hh]; split; [done|]); intros s Hs.
      * apply elem_of_cons in Hs as [|Hs]; [done | by eapply Hh].
      * apply (Hh s). by right.
    + assert (Hstep : wrapper_world (act f x (Then c)) = (call f c (wrapper_world x)).2
                      ∧ answers_follow_calls (waiting (act f x (Then c))) h = true).
      { destruct c as [answer| | |]; cbn [act answers_follow_calls] in *;
          try done.
        by destruct (waiting x). }
      destruct Hstep as [Hw Hwf'].
      rewrite (IH _ Hwf'), Hw, mediaRecorder_call. split.
      * intros [Hc Hh]. destruct c as [[s|msg]| | |]; try done;
          (split; [done|]; intros s' [|]%elem_of_cons; [done | by eapply Hh]).
      * intros [Hx Hh]. split.
        -- destruct c as [[s|msg]| | |]; try done.
           exfalso. apply (Hh s). left.
        -- intros s Hs. apply (Hh s). by right.
Qed.

(** C9, amended. After a granted [startRecording()], a [stopRecording()] and
    the stop task, the first promise is fulfilled and the recorder reference
    is still set, so a second [stopRecording()] does not take the
    empty-object branch: its promise is pending on return.  Over every
    history of a fresh wrapper, with the calls of [startRecording()] and the
    host's answers to them as steps of their own, [stopRecording()] takes
    the empty-object branch exactly when no call has been granted the
    device: none was made, or every one was denied or still waits for its
    answer.  So it does, in particular, whatever else has happened, while
    no call has been answered at all. *)
Theorem stop_after_cycle (f : string → bool) :
  (∀ (s : MediaStream) (final : Blob) (w : World),
     let mr := length (recorders w) in
     let w2 := calls f [Start (Granted s); Stop; StopTask mr final] w in
     promises w2 !! length (promises w)
       = Some (fulfilled (new_Blob [final] "audio/mp3"))
     ∧ mediaRecorder w2 = Some mr
     ∧ ¬ takes_empty_branch w2
     ∧ promises (stopRecording w2).2 !! length (promises w2) = Some pending)
  ∧ (∀ (cs : list Call) (fo : gset string) (fi : gmap string (list Byte.byte)),
       takes_empty_branch (calls f cs (fresh fo fi))
       ↔ ∀ s, Start (Granted s) ∉ cs)
  ∧ (∀ (h : list Action) (fo : gset string) (fi : gmap string (list Byte.byte)),
       answers_follow_calls 0 h = true →
       takes_empty_branch (wrapper_world (acts f h (new_AudioRecorder fo fi)))
       ↔ ∀ s, Then (Start (Granted s)) ∉ h)
  ∧ (∀ (h : list Action) (fo : gset string) (fi : gmap string (list Byte.byte)),
       (∀ answer, Then (Start answer) ∉ h) →
       takes_empty_branch (wrapper_world (acts f h (new_AudioRecorder fo fi)))).
Proof.
  split; [|split; [|split]].
  - intros s final w mr w2.
    assert (Hmr : mediaRecorder w2 = Some mr).
    { subst w2 mr. by rewrite cycle_eq. }
    split; [|split; [exact Hmr|split]].
    + subst w2 mr. rewrite cycle_eq. apply lookup_snoc_length.
    + rewrite takes_empty_branch_iff, Hmr. done.
    + by apply (stopRecording_pending w2 mr).
  - intros cs fo fi. rewrite takes_empty_branch_iff, mediaRecorder_calls.
    split; [by intros [_ ?] | by split].
  - intros h fo fi Hwf.
    rewrite takes_empty_branch_iff, (mediaRecorder_acts f h (new_AudioRecorder fo fi) Hwf).
    split; [by intros [_ ?] | by split].
  - intros h fo fi Hh.
    assert (Hwf : ∀ n, answers_follow_calls n h = true).
    { induction h as [|a h IH]; intros n; [done|].
      destruct a as [|[answer| | |]]; cbn [answers_follow_calls];
        try (apply IH; intros answer' ?; apply (Hh answer'); by right).
      exfalso. apply (Hh answer). left. }
    rewrite takes_empty_branch_iff,
      (mediaRecorder_acts f h (new_AudioRecorder fo fi) (Hwf 0)).
    split; [done|]. intros s. apply Hh.
Qed.

(** A call that still waits for the device, after one that was denied. *)
Lemma stop_after_cycle_witness :
  let h := [StartCalled; Then (Start (Denied "NotAllowedError")); StartCalled;
            Then Stop] in
  answers_follow_calls 0 h = true
  ∧ waiting (acts (λ _, true) h (new_AudioRecorder ∅ ∅)) = 1
  ∧ takes_empty_branch (wrapper_world (acts (λ _, true) h (new_AudioRecorder ∅ ∅))).
Proof.
  intros h. split; [reflexivity|]. split; [reflexivity|].
  destruct (stop_after_cycle (λ _, true)) as (_ & _ & H & _).
  apply (H h ∅ ∅); [reflexivity|].
  intros s Hs. by repeat (apply elem_of_cons in Hs as [?|Hs]; [done|]);
    apply elem_of_nil in Hs.
Defined.

(** ** The plugin *)





(** C7. The flag does not keep the sessions apart.  On the wrapper, two
    granted starts in a row leave both streams live; in the plugin, three
    clicks on the ribbon while the first device request is unanswered put
    two requests in flight, and once both are granted two streams are live
    while the wrapper refers to the second only. *)
Theorem double_start_leaks_stream (f : string → bool) (createBinary_replaces : bool) :
  let s1 := {| stream_id := 1; tracks := [10] |} in
  let s2 := {| stream_id := 2; tracks := [20] |} in
  let w := calls f [Start (Granted s1); Start (Granted s2)] (fresh ∅ ∅) in
  let a := run f createBinary_replaces
             [RibbonClick 1; RibbonClick 2; RibbonClick 3;
              MediaAnswered (Granted s1); MediaAnswered (Granted s2)]
             (onload ∅ ∅) in
  live_streams w = [s1; s2] ∧ stream w = Some s2
  ∧ live_streams (world a) = [s1; s2] ∧ stream (world a) = Some s2
  ∧ isRecording a = true.
Proof. vm_compute. done. Qed.

(** * The rest of the plugin *)

(** ** Renaming a recording *)

Lemma adapter_exists_eq (p : string) (w : World) :
  adapter_exists p w
  = (Normal (bool_decide (p ∈ folders w) || bool_decide (is_Some (files w !! p))), w).
Proof. reflexivity. Qed.

Lemma destination_free (p : string) (w : World) :
  (adapter_exists p w).1 = Normal false → (p ∉ folders w) ∧ files w !! p = None.
Proof.
  rewrite adapter_exists_eq. simpl. intros [= H].
  apply orb_false_iff in H as [H1 H2].
  apply bool_decide_eq_false in H1, H2. split; [done|].
  by apply eq_None_not_Some.
Qed.

(** The callback on a free destination with the source in place. *)
Lemma rename_callback_moves (file : TFile) (newName : string) (data : list Byte.byte)
    (w : World) :
  newName ≠ "" → newName ≠ name file →
  (adapter_exists ("Audio/" +:+ newName) w).1 = Normal false →
  files w !! path file = Some data →
  rename_callback file newName w
  = (Normal (),
     set_log (log w ++ [Notice ("Renamed to: " +:+ newName); PlaybackRefresh])
       (set_vault (folders w)
          (<["Audio/" +:+ newName := data]> (delete (path file) (files w))) w)).
Proof.
  intros Hne Hname Hfree Hsrc. unfold rename_callback.
  rewrite bool_decide_eq_true_2 by done.
  destruct newName; [done|]. cbn [truthy andb].
  unfold mbind, St_bind. rewrite adapter_exists_eq in *. simpl in Hfree.
  injection Hfree as Hfree. rewrite Hfree.
  unfold vault_rename. run_M. simpl. rewrite Hsrc. simpl. rewrite Hfree. simpl.
  by rewrite <- app_assoc.
Qed.

(** X1. A rename to a free name moves the recording: its bytes are at
    "Audio/<newName>", nothing is left at the old path, every other file
    is where it was, and the dialog says "Renamed to: <newName>" and
    redraws its list. *)
Theorem rename_moves_recording (file : TFile) (newName : string)
    (data : list Byte.byte) (w : World) :
  newName ≠ "" → newName ≠ name file →
  (adapter_exists ("Audio/" +:+ newName) w).1 = Normal false →
  files w !! path file = Some data →
  ∃ w',
    rename_callback file newName w = (Normal (), w')
    ∧ files w' !! ("Audio/" +:+ newName) = Some data
    ∧ files w' !! path file = None
    ∧ (∀ q, q ≠ path file → q ≠ ("Audio/" +:+ newName) →
         files w' !! q = files w !! q)
    ∧ folders w' = folders w
    ∧ log w' = log w ++ [Notice ("Renamed to: " +:+ newName); PlaybackRefresh].
Proof.
  intros Hne Hname Hfree Hsrc.
  destruct (destination_free _ _ Hfree) as [_ Hdst].
  assert (Hpaths : ("Audio/" +:+ newName) ≠ path file) by congruence.
  eexists. rewrite (rename_callback_moves file newName data) by done.
  split; [done|]. simpl. split; [apply lookup_insert_eq|].
  split; [by rewrite lookup_insert_ne, lookup_delete_eq|].
  split; [|done]. intros q Hq1 Hq2.
  by rewrite lookup_insert_ne, lookup_delete_ne.
Qed.

Lemma rename_moves_recording_witness :
  let w := fresh {["Audio"]} {["Audio/a.mp3" := [Byte.x49]; "Notes/n.md" := [Byte.x23]]} in
  ∃ w', rename_callback (saved_file "a.mp3") "b.mp3" w = (Normal (), w')
        ∧ files w' !! "Audio/b.mp3" = Some [Byte.x49]
        ∧ files w' !! "Audio/a.mp3" = None
        ∧ files w' !! "Notes/n.md" = Some [Byte.x23].
Proof.
  intros w.
  destruct (rename_moves_recording (saved_file "a.mp3") "b.mp3" [Byte.x49] w)
    as (w' & Hrun & Hnew & Hold & Hrest & _); [done | done | done | done |].
  exists w'. split; [exact Hrun|]. split; [exact Hnew|]. split; [exact Hold|].
  rewrite Hrest by done. done.
Defined.

(** The storage layer refusing the rename (the source is gone) is caught
    and reported. *)
Lemma rename_callback_source_gone (file : TFile) (newName : string) (w : World) :
  newName ≠ "" → newName ≠ name file →
  (adapter_exists ("Audio/" +:+ newName) w).1 = Normal false →
  files w !! path file = None →
  rename_callback file newName w
  = (Normal (),
     set_log (log w ++ [Notice ("Error renaming file: " +:+ "File not found.")]) w).
Proof.
  intros Hne Hname Hfree Hsrc. unfold rename_callback.
  rewrite bool_decide_eq_true_2 by done.
  destruct newName; [done|]. cbn [truthy andb].
  unfold mbind, St_bind. rewrite adapter_exists_eq in *. simpl in Hfree.
  injection Hfree as Hfree. rewrite Hfree.
  unfold vault_rename. run_M. simpl. by rewrite Hsrc.
Qed.

(** X2. Whatever it is asked, the rename callback completes without
    throwing, leaves the folders alone and neither loses, duplicates nor
    alters a file's content: the contents of the vault's files are the
    same collection before and after. *)
Theorem rename_keeps_contents (file : TFile) (newName : string) (w : World) :
  ∃ w',
    rename_callback file newName w = (Normal (), w')
    ∧ folders w' = folders w
    ∧ (map_to_list (files w')).*2 ≡ₚ (map_to_list (files w)).*2.
Proof.
  destruct (decide (newName = "")) as [->|Hne]; [by exists w|].
  destruct (decide (newName = name file)) as [->|Hname].
  { exists w. by rewrite rename_callback_same_name. }
  destruct (adapter_exists ("Audio/" +:+ newName) w) as [c w0] eqn:Hex.
  rewrite adapter_exists_eq in Hex. injection Hex as Hc Hw0. subst w0.
  destruct (bool_decide ("Audio/" +:+ newName ∈ folders w)
            || bool_decide (is_Some (files w !! ("Audio/" +:+ newName)))) eqn:Hb.
  - eexists. rewrite rename_callback_collision; [done..|].
    unfold destination_exists. by rewrite adapter_exists_eq, Hb.
  - assert (Hfree : (adapter_exists ("Audio/" +:+ newName) w).1 = Normal false)
      by (by rewrite adapter_exists_eq, Hb).
    destruct (destination_free _ _ Hfree) as [_ Hdst].
    destruct (files w !! path file) as [data|] eqn:Hsrc.
    + eexists. rewrite (rename_callback_moves file newName data) by done.
      split; [done|]. split; [done|]. simpl.
      rewrite map_to_list_insert by (by rewrite lookup_delete_ne by congruence).
      rewrite <- (map_to_list_delete (files w) (path file) data) by done.
      done.
    + eexists. by rewrite rename_callback_source_gone.
Qed.

(** X3. Renaming a recording and then renaming it back restores the
    vault's files exactly. *)
Theorem rename_round_trip (a b : string) (data : list Byte.byte) (w : World) :
  a ≠ "" → b ≠ "" → a ≠ b →
  files w !! ("Audio/" +:+ a) = Some data →
  ("Audio/" +:+ a) ∉ folders w →
  (adapter_exists ("Audio/" +:+ b) w).1 = Normal false →
  ∃ w1 w2,
    rename_callback (saved_file a) b w = (Normal (), w1)
    ∧ rename_callback (saved_file b) a w1 = (Normal (), w2)
    ∧ files w1 !! ("Audio/" +:+ b) = Some data
    ∧ files w2 = files w ∧ folders w2 = folders w.
Proof.
  intros Ha Hb Hab Hsrc Hnofolder Hfree.
  destruct (destination_free _ _ Hfree) as [Hbfolder Hbfile].
  assert (Hpaths : ("Audio/" +:+ a) ≠ ("Audio/" +:+ b)).
  { intros Heq. by apply (inj (String.app "Audio/")) in Heq. }
  set (w1 := set_log (log w ++ [Notice ("Renamed to: " +:+ b); PlaybackRefresh])
               (set_vault (folders w)
                  (<["Audio/" +:+ b := data]> (delete ("Audio/" +:+ a) (files w))) w)).
  assert (H1 : rename_callback (saved_file a) b w = (Normal (), w1))
    by (by apply rename_callback_moves).
  assert (Hfree1 : (adapter_exists ("Audio/" +:+ a) w1).1 = Normal false).
  { rewrite adapter_exists_eq. cbn [fst]. f_equal.
    rewrite bool_decide_eq_false_2 by done.
    rewrite bool_decide_eq_false_2; [done|]. subst w1. cbn [files set_log set_vault].
    rewrite lookup_insert_ne, lookup_delete_eq by done. by intros [? ?]. }
  assert (Hsrc1 : files w1 !! path (saved_file b) = Some data)
    by apply lookup_insert_eq.
  eexists _, _. split; [exact H1|].
  rewrite (rename_callback_moves (saved_file b) a data w1 Ha Hab Hfree1 Hsrc1).
  split; [done|]. split; [apply lookup_insert_eq|]. split; [|done].
  subst w1. cbn [files folders log set_log set_vault saved_file path].
  rewrite delete_insert_eq, (delete_id (delete _ _)), insert_delete_eq
    by (by rewrite lookup_delete_ne).
  by apply insert_id.
Qed.

Lemma rename_round_trip_witness :
  let w := fresh {["Audio"]} {["Audio/a.mp3" := [Byte.x49]]} in
  ∃ w1 w2,
    rename_callback (saved_file "a.mp3") "b.mp3" w = (Normal (), w1)
    ∧ rename_callback (saved_file "b.mp3") "a.mp3" w1 = (Normal (), w2)
    ∧ files w2 = files w.
Proof.
  intros w.
  destruct (rename_round_trip "a.mp3" "b.mp3" [Byte.x49] w)
    as (w1 & w2 & H1 & H2 & _ & H3 & _);
    [done | done | done | reflexivity
    | unfold w; cbn [folders fresh]; by intros ?%elem_of_singleton
    | reflexivity |].
  exists w1, w2. split; [exact H1|]. split; [exact H2 | exact H3].
Defined.

(** ** Deleting a recording *)

Lemma deleteBtn_onclick_present (file : TFile) (data : list Byte.byte) (w : World) :
  files w !! path file = Some data →
  deleteBtn_onclick file w
  = (Normal (),
     set_log (log w ++ [Notice ("Deleted: " +:+ name file); PlaybackRefresh])
       (set_vault (folders w) (delete (path file) (files w)) w)).
Proof.
  intros Hsrc. unfold deleteBtn_onclick, vault_trash. run_M. simpl.
  rewrite Hsrc. simpl. by rewrite <- app_assoc.
Qed.

(** X4. Deleting a recording that the dialog lists removes exactly that
    entry from the listing: every other entry stays as it was, no other
    file of the vault is touched, and the dialog says "Deleted: <name>"
    and redraws its list. *)
Theorem delete_removes_from_listing (file : TFile) (data : list Byte.byte)
    (w : World) :
  (path file, data) ∈ audioFiles w →
  ∃ w',
    deleteBtn_onclick file w = (Normal (), w')
    ∧ (∀ e, e ∈ audioFiles w' ↔ e ∈ audioFiles w ∧ e.1 ≠ path file)
    ∧ (∀ q, q ≠ path file → files w' !! q = files w !! q)
    ∧ folders w' = folders w
    ∧ log w' = log w ++ [Notice ("Deleted: " +:+ name file); PlaybackRefresh].
Proof.
  unfold audioFiles, getFiles.
  intros [_ Hsrc%elem_of_map_to_list]%list_elem_of_filter. simpl in Hsrc.
  eexists. rewrite (deleteBtn_onclick_present file data) by done.
  split; [done|]. simpl. split; [|split; [|done]].
  - intros [q d]. rewrite !list_elem_of_filter, !elem_of_map_to_list. simpl.
    rewrite lookup_delete_Some.
    split; [intros (? & ? & ?) | intros ((? & ?) & ?)]; repeat split;
      try done; congruence.
  - intros q Hq. by rewrite lookup_delete_ne.
Qed.

Lemma delete_removes_from_listing_witness :
  let w := fresh {["Audio"]}
             {["Audio/a.mp3" := [Byte.x49]; "Audio/b.mp3" := [Byte.x44]]} in
  ∃ w', deleteBtn_onclick (saved_file "a.mp3") w = (Normal (), w')
        ∧ files w' !! "Audio/a.mp3" = None
        ∧ ("Audio/b.mp3", [Byte.x44]) ∈ audioFiles w'.
Proof.
  intros w.
  assert (Hin : ∀ e, e ∈ audioFiles w ↔
                     e = ("Audio/a.mp3", [Byte.x49]) ∨ e = ("Audio/b.mp3", [Byte.x44])).
  { intros [q d]. unfold audioFiles, getFiles.
    rewrite list_elem_of_filter, elem_of_map_to_list. simpl. split.
    - intros [_ H]. apply lookup_insert_Some in H as [[<- <-]|[_ H]]; [by left|].
      apply lookup_singleton_Some in H as [<- <-]. by right.
    - intros [[= -> ->]|[= -> ->]]; (split; [by vm_compute|]); by vm_compute. }
  destruct (delete_removes_from_listing (saved_file "a.mp3") [Byte.x49] w)
    as (w' & Hrun & Hlist & Hrest & _).
  { apply Hin. by left. }
  exists w'. split; [exact Hrun|]. split.
  - destruct (files w' !! "Audio/a.mp3") as [d|] eqn:Hd; [|done].
    assert (("Audio/a.mp3", d) ∈ audioFiles w') as [_ Hne]%Hlist; [|done].
    unfold audioFiles, getFiles. rewrite list_elem_of_filter, elem_of_map_to_list.
    split; [by vm_compute | exact Hd].
  - apply Hlist. split; [apply Hin; by right | done].
Defined.

(** ** Saving *)

Lemma saved_accepts_other (r : bool) (blob : Blob) (n1 n2 : string) (w : World) :
  n1 ≠ n2 → write_accepted r ("Audio/" +:+ n2) w →
  write_accepted r ("Audio/" +:+ n2) (saved blob n1 w).
Proof.
  intros Hn [->|Hfree]; [by left|]. right. unfold saved. simpl.
  rewrite lookup_insert_ne; [done|].
  intros Heq. by apply (inj (String.app "Audio/")) in Heq.
Qed.

(** X5. Two recordings saved one after the other under different names are
    both in the vault with their own bytes, every other file is untouched,
    both "Saved" notices are shown in order, and the files that result do
    not depend on which of the two was saved first. *)
Theorem saves_do_not_interfere (createBinary_replaces : bool) (b1 b2 : Blob)
    (n1 n2 : string) (w : World) :
  n1 ≠ n2 →
  write_accepted createBinary_replaces ("Audio/" +:+ n1) w →
  write_accepted createBinary_replaces ("Audio/" +:+ n2) w →
  ∃ w1 w2 w1' w2',
    saveAudio createBinary_replaces b1 n1 w = (Normal (), w1)
    ∧ saveAudio createBinary_replaces b2 n2 w1 = (Normal (), w2)
    ∧ files w2 !! ("Audio/" +:+ n1) = Some (blob_bytes b1)
    ∧ files w2 !! ("Audio/" +:+ n2) = Some (blob_bytes b2)
    ∧ (∀ q, q ≠ ("Audio/" +:+ n1) → q ≠ ("Audio/" +:+ n2) →
         files w2 !! q = files w !! q)
    ∧ log w2 = log w ++ [Notice ("Saved: " +:+ n1); Notice ("Saved: " +:+ n2)]
    ∧ saveAudio createBinary_replaces b2 n2 w = (Normal (), w1')
    ∧ saveAudio createBinary_replaces b1 n1 w1' = (Normal (), w2')
    ∧ files w2' = files w2.
Proof.
  intros Hn Hacc1 Hacc2.
  assert (Hpaths : ("Audio/" +:+ n1) ≠ ("Audio/" +:+ n2)).
  { intros Heq. by apply (inj (String.app "Audio/")) in Heq. }
  exists (saved b1 n1 w), (saved b2 n2 (saved b1 n1 w)),
    (saved b2 n2 w), (saved b1 n1 (saved b2 n2 w)).
  rewrite !saveAudio_accepted by (done || by apply saved_accepts_other).
  split; [done|]. split; [done|]. unfold saved. simpl.
  split; [by rewrite lookup_insert_ne, lookup_insert_eq|].
  split; [apply lookup_insert_eq|].
  split; [by intros q ? ?; rewrite !lookup_insert_ne|].
  split; [by rewrite <- app_assoc|].
  split; [done|]. split; [done|]. by apply insert_insert_ne.
Qed.

Lemma saves_do_not_interfere_witness :
  let b1 := {| blob_bytes := [Byte.x49]; blob_type := "audio/mp3" |} in
  let b2 := {| blob_bytes := [Byte.x44; Byte.x33]; blob_type := "audio/mp3" |} in
  ∃ w1 w2,
    saveAudio false b1 "one.mp3" (fresh ∅ ∅) = (Normal (), w1)
    ∧ saveAudio false b2 "two.mp3" w1 = (Normal (), w2)
    ∧ files w2 !! "Audio/one.mp3" = Some [Byte.x49]
    ∧ files w2 !! "Audio/two.mp3" = Some [Byte.x44; Byte.x33].
Proof.
  intros b1 b2.
  destruct (saves_do_not_interfere false b1 b2 "one.mp3" "two.mp3" (fresh ∅ ∅))
    as (w1 & w2 & _ & _ & H1 & H2 & H3 & H4 & _); [done | by right | by right |].
  exists w1, w2. split; [exact H1|]. split; [exact H2|]. split; [exact H3 | exact H4].
Defined.

Lemma saveAudio_rejected (blob : Blob) (filename : string) (old : list Byte.byte)
    (w : World) :
  files w !! ("Audio/" +:+ filename) = Some old →
  saveAudio false blob filename w
  = (Throw "File already exists.",
     set_vault
       (if bool_decide ("Audio" ∈ folders w) || bool_decide (is_Some (files w !! "Audio"))
        then folders w else folders w ∪ {["Audio"]})
       (files w) w).
Proof.
  intros Hold. unfold saveAudio. run_M. simpl.
  change ("Audio" +:+ "/" +:+ filename) with ("Audio/" +:+ filename).
  destruct (bool_decide ("Audio" ∈ folders w) || bool_decide (is_Some (files w !! "Audio")))
    eqn:Hex; simpl; rewrite ?Hex; simpl; rewrite Hold; [|done].
  by destruct w.
Qed.

(** X6. When the host rejects the write because a file of that name is
    already there, [saveAudio] throws before its notice: the old bytes stay,
    nothing is logged, and the dialog's callback that called it stops right
    there, so the recording flag is not reset and the dialogs are not
    switched. *)
Theorem rejected_save_leaves_flag (blob : Blob) (filename : string)
    (old : list Byte.byte) (a : App) :
  files (world a) !! ("Audio/" +:+ filename) = Some old →
  ∃ w' a',
    saveAudio false blob filename (world a) = (Throw "File already exists.", w')
    ∧ files w' = files (world a) ∧ log w' = log (world a)
    ∧ modal_stopped false filename (Some blob) a = (Throw "File already exists.", a')
    ∧ world a' = w'
    ∧ isRecording a' = isRecording a
    ∧ recordingModalOpen a' = recordingModalOpen a
    ∧ playbackModalOpen a' = playbackModalOpen a.
Proof.
  intros Hold. eexists _, _.
  unfold modal_stopped, lift. step_M.
  rewrite (saveAudio_rejected blob filename old) by done.
  by repeat split.
Qed.

Lemma rejected_save_leaves_flag_witness :
  let a := set_isRecording true
             (set_modals true true false
                (onload {["Audio"]} {["Audio/memo.mp3" := [Byte.x49]]})) in
  ∃ a', modal_stopped false "memo.mp3" (Some empty_Blob) a
        = (Throw "File already exists.", a')
        ∧ isRecording a' = true ∧ recordingModalOpen a' = true
        ∧ files (world a') !! "Audio/memo.mp3" = Some [Byte.x49].
Proof.
  intros a.
  destruct (rejected_save_leaves_flag empty_Blob "memo.mp3" [Byte.x49] a)
    as (w' & a' & _ & Hf & _ & Hrun & Hw & Hrec & Hopen & _); [reflexivity|].
  exists a'. split; [exact Hrun|]. split; [exact Hrec|]. split; [exact Hopen|].
  by rewrite Hw, Hf.
Defined.

(** ** Generated file names *)

Lemma string_length_append (a b : string) :
  String.length (a +:+ b) = String.length a + String.length b.
Proof.
  induction a as [|c a IH]; [done|].
  change (String c a +:+ b) with (String c (a +:+ b)). simpl. by rewrite IH.
Qed.

Lemma append_inj_r (x y s : string) : x +:+ s = y +:+ s → x = y.
Proof.
  revert y. induction x as [|c x IH]; intros [|c' y] H.
  - done.
  - apply (f_equal String.length) in H.
    change (String c' y +:+ s) with (String c' (y +:+ s)) in H.
    change ("" +:+ s) with s in H. simpl in H.
    rewrite string_length_append in H. lia.
  - apply (f_equal String.length) in H.
    change (String c x +:+ s) with (String c (x +:+ s)) in H.
    change ("" +:+ s) with s in H. simpl in H.
    rewrite string_length_append in H. lia.
  - change (String c x +:+ s) with (String c (x +:+ s)) in H.
    change (String c' y +:+ s) with (String c' (y +:+ s)) in H.
    injection H as -> H. f_equal. by apply IH.
Qed.

Lemma string_of_uint_inj (d d' : Decimal.uint) :
  NilEmpty.string_of_uint d = NilEmpty.string_of_uint d' → d = d'.
Proof.
  intros H. apply (f_equal NilEmpty.uint_of_string) in H.
  rewrite !NilEmpty.usu in H. by injection H.
Qed.

(** X7. The generated file names are one-to-one in the clock: two saves
    under generated names at different times never go to the same path. *)
Theorem defaultName_distinct (now now' : N) :
  now ≠ now' → ("Audio/" +:+ defaultName now) ≠ ("Audio/" +:+ defaultName now').
Proof.
  unfold defaultName. intros Hne H. apply Hne.
  apply (inj (String.app "Audio/")), (inj (String.app "Recording-")) in H.
  apply append_inj_r, string_of_uint_inj in H.
  by apply DecimalN.Unsigned.to_uint_inj.
Qed.

Lemma defaultName_distinct_witness :
  ("Audio/" +:+ defaultName 1699999999999) ≠ ("Audio/" +:+ defaultName 1700000000000).
Proof. apply defaultName_distinct. discriminate. Defined.

(** ** A whole recording *)

Lemma calls_app f cs1 cs2 w : calls f (cs1 ++ cs2) w = calls f cs2 (calls f cs1 w).
Proof. apply foldl_app. Qed.

Lemma fire_dataavailable_installed mr r data w :
  recorders w !! mr = Some r → mr_ondataavailable r = true →
  fire_dataavailable mr data w
  = (Normal (), set_this (mediaRecorder w) (audioChunks w ++ [data]) (stream w) w).
Proof.
  intros Hr Hoda. run_M. rewrite Hr. destruct r. simpl in Hoda. by subst.
Qed.

(** Chunks delivered to a recorder with the handler installed are buffered
    in the order of delivery. *)
Lemma data_calls f mr r chunks w :
  recorders w !! mr = Some r → mr_ondataavailable r = true →
  calls f (map (Data mr) chunks) w
  = set_this (mediaRecorder w) (audioChunks w ++ chunks) (stream w) w.
Proof.
  intros Hr Hoda. revert w Hr.
  induction chunks as [|c chunks IH]; intros w Hr.
  - destruct w. unfold set_this. simpl. by rewrite app_nil_r.
  - change (calls f (map (Data mr) (c :: chunks)) w)
      with (calls f (map (Data mr) chunks) (fire_dataavailable mr c w).2).
    rewrite (fire_dataavailable_installed mr r) by done. cbn [snd].
    rewrite IH by done. unfold set_this. simpl. by rewrite <- app_assoc.
Qed.

Lemma session_eq f s chunks final w :
  calls f (session s chunks final (length (recorders w))) w
  = stopped false (length (recorders w)) (started_recorder f s) s final
      (recording_with f s chunks w).
Proof.
  unfold session. rewrite !calls_app.
  assert (Hstart : calls f [Start (Granted s)] w = started f s w).
  { unfold calls. cbn [foldl call]. unfold mbind, St_bind.
    by rewrite startRecording_granted. }
  rewrite Hstart.
  assert (Hr : recorders (started f s w) !! length (recorders w)
               = Some (started_recorder f s)) by apply lookup_snoc_length.
  rewrite (data_calls f _ _ chunks _ Hr eq_refl).
  change (set_this _ _ _ (started f s w)) with (recording_with f s chunks w).
  unfold calls. cbn [foldl call]. unfold mbind, St_bind, mret, St_ret.
  destruct (stopRecording_session (recording_with f s chunks w) _ _
              eq_refl Hr eq_refl) as [-> _]. cbn [snd].
  destruct (fire_stop_session (recording_with f s chunks w) _ _ s final
              Hr eq_refl eq_refl) as [-> _].
  reflexivity.
Qed.

(** X8. One whole recording, from any world: after a granted start, the
    chunks the host delivers, a stop and the stop task, the promise of that
    stop is fulfilled with exactly the delivered bytes in the order of
    delivery, tagged audio/mp3; whatever was in the buffer before the start
    is not part of it; the buffer is empty again and the wrapper has let go
    of the stream, whose tracks are all stopped. *)
Theorem session_records_delivered_bytes (f : string → bool) (s : MediaStream)
    (chunks : list Blob) (final : Blob) (w : World) :
  let w' := calls f (session s chunks final (length (recorders w))) w in
  ∃ audioBlob,
    promises w' !! length (promises w) = Some (fulfilled audioBlob)
    ∧ blob_bytes audioBlob
      = concat (map blob_bytes chunks) ++ blob_bytes final
    ∧ blob_type audioBlob = "audio/mp3"
    ∧ audioChunks w' = [] ∧ stream w' = None
    ∧ stream_live w' s = false.
Proof.
  intros w'. subst w'. rewrite session_eq.
  exists (new_Blob (chunks ++ [final]) "audio/mp3").
  split; [apply lookup_snoc_length|].
  split.
  { unfold new_Blob. cbn [blob_bytes]. rewrite map_app, concat_app. simpl.
    by rewrite app_nil_r. }
  split; [done|]. split; [done|]. split; [done|].
  apply (stopped_finished false _ (started_recorder f s) s final
           (recording_with f s chunks w)).
Qed.

Lemma stream_live_false (w : World) (g : MediaStream) :
  stream_live w g = false ↔ ∀ t, t ∈ tracks g → t ∈ ended w.
Proof.
  unfold stream_live. rewrite <- not_true_iff_false, existsb_exists. split.
  - intros H t Ht. destruct (decide (t ∈ ended w)) as [|Hn]; [done|].
    exfalso. apply H. exists t. split; [by apply list_elem_of_In|].
    by rewrite bool_decide_eq_false_2.
  - intros H (t & Ht%list_elem_of_In & Hlive).
    by rewrite bool_decide_eq_true_2 in Hlive by auto.
Qed.

Lemma live_streams_nil (w : World) :
  live_streams w = [] ↔ ∀ g, g ∈ granted w → stream_live w g = false.
Proof.
  unfold live_streams. split.
  - intros H g Hg. apply not_true_is_false. intros Hlive.
    assert (g ∈ filter (λ s, stream_live w s = true) (granted w)) as Hin
      by (by apply list_elem_of_filter).
    rewrite H in Hin. by apply elem_of_nil in Hin.
  - intros H. apply elem_of_nil_inv. intros g [Hlive Hg]%list_elem_of_filter.
    by rewrite (H g Hg) in Hlive.
Qed.

Lemma session_releases f s chunks final w :
  live_streams w = [] →
  live_streams (calls f (session s chunks final (length (recorders w))) w) = [].
Proof.
  rewrite !live_streams_nil, session_eq. intros H g Hg.
  apply stream_live_false. intros t Ht. simpl in *.
  apply elem_of_app in Hg as [Hg|Hg].
  - apply elem_of_union_l. by apply (stream_live_false w g); [apply H|].
  - apply list_elem_of_singleton in Hg. subst g.
    apply elem_of_union_r. by apply elem_of_list_to_set.
Qed.

Lemma session_granted f s chunks final w :
  granted (calls f (session s chunks final (length (recorders w))) w)
  = granted w ++ [s].
Proof. by rewrite session_eq. Qed.

(** X9. Recordings made one after the other, each stopped before the next
    starts, never leave a device stream live: from a world without a live
    stream, after any number of whole sessions every stream the host handed
    out has all its tracks stopped. *)
Theorem sessions_release_device (f : string → bool)
    (ss : list (MediaStream * list Blob * Blob)) (w : World) :
  live_streams w = [] →
  live_streams (sessions f ss w) = []
  ∧ granted (sessions f ss w) = granted w ++ map (λ x, x.1.1) ss.
Proof.
  revert w. induction ss as [|[[s chunks] final] ss IH]; intros w Hw.
  - simpl. by rewrite app_nil_r.
  - cbn [sessions].
    destruct (IH _ (session_releases f s chunks final w Hw)) as [H1 H2].
    split; [exact H1|]. rewrite H2, session_granted. simpl.
    by rewrite <- app_assoc.
Qed.

Lemma sessions_release_device_witness :
  let s1 := {| stream_id := 1; tracks := [10] |} in
  let s2 := {| stream_id := 2; tracks := [20; 21] |} in
  let chunk := {| blob_bytes := [Byte.x49]; blob_type := "audio/webm" |} in
  let w := sessions (λ _, true) [(s1, [chunk], chunk); (s2, [], chunk)] (fresh ∅ ∅) in
  live_streams w = [] ∧ granted w = [s1; s2].
Proof.
  intros s1 s2 chunk w.
  apply (sessions_release_device (λ _, true)
           [(s1, [chunk], chunk); (s2, [], chunk)] (fresh ∅ ∅)).
  reflexivity.
Defined.

(** ** Promises that nothing settles *)

Lemma handlers_exist_call f c w : handlers_exist w → handlers_exist (call f c w).2.
Proof.
  unfold handlers_exist. intros H.
  destruct c as [[s|msg]| |mr data|mr final]; unfold call.
  - unfold mbind, St_bind. rewrite startRecording_granted. simpl.
    apply Forall_app. split; [done|]. by repeat constructor.
  - unfold mbind, St_bind. by rewrite startRecording_denied.
  - unfold stopRecording. run_M. simpl.
    repeat (destruct_inner; simpl); rewrite ?length_insert, ?length_app; simpl;
      repeat (apply Forall_alter;
              [|intros ? _ ?; simpl; intros ? ?; simplify_eq; try lia; eauto]);
      grow_handlers H.
  - run_M. repeat (destruct_inner; simpl); done.
  - unfold onstop. run_M. simpl.
    destruct (recorders w !! mr) as [[st mime state oda h []]|]; simpl; try done.
    repeat (rewrite ?forEach_track_stop; simpl; destruct_inner; simpl);
      rewrite ?forEach_track_stop; simpl; repeat (destruct_inner; simpl);
      rewrite ?length_insert;
      repeat (apply Forall_alter; [|intros ? _ ?; simpl; eauto]); done.
Qed.


Lemma quiet_with_onstop (p p' n : nat) (rs : list MediaRecorder) :
  p' ≠ p →
  Forall (λ r, mr_onstop r = Some p →
               mr_state r = inactive ∧ mr_stop_queued r = false) rs →
  Forall (λ r, mr_onstop r = Some p →
               mr_state r = inactive ∧ mr_stop_queued r = false)
    (alter (with_onstop p') n rs).
Proof.
  intros Hne H. apply Forall_alter; [done|].
  intros x _ _ Hq. simpl in Hq. congruence.
Qed.

Lemma quiet_with_state (p p' n : nat) (st : RecordingState) (q : bool)
    (rs : list MediaRecorder) :
  p' ≠ p →
  Forall (λ r, mr_onstop r = Some p →
               mr_state r = inactive ∧ mr_stop_queued r = false) rs →
  Forall (λ r, mr_onstop r = Some p →
               mr_state r = inactive ∧ mr_stop_queued r = false)
    (alter (with_state st q) n (alter (with_onstop p') n rs)).
Proof.
  intros Hne H. apply Forall_alter; [by apply quiet_with_onstop|].
  intros x Hx _ Hq. rewrite list_lookup_alter_eq in Hx.
  destruct (rs !! n) as [x0|]; simplify_eq/=.
Qed.

Lemma stranded_call f p c w : stranded p w → stranded p (call f c w).2.
Proof.
  intros [Hp Hr].
  assert (Hlt : length (promises w) ≠ p).
  { apply lookup_lt_Some in Hp. lia. }
  destruct c as [[s|msg]| |mr data|mr final]; unfold call.
  - unfold mbind, St_bind. rewrite startRecording_granted. split; simpl; [done|].
    apply Forall_app; split; [done|]. by repeat constructor.
  - unfold mbind, St_bind. by rewrite startRecording_denied.
  - unfold stopRecording. run_M. simpl.
    repeat (destruct_inner; simpl);
      (split; simpl;
       [ rewrite ?list_lookup_insert_ne by done; by apply lookup_app_l_Some
       | first [ done | by apply quiet_with_state | by apply quiet_with_onstop ] ]).
  - run_M. repeat (destruct_inner; simpl); done.
  - unfold onstop. run_M. simpl.
    destruct (recorders w !! mr) as [[st mime state oda h q]|] eqn:Hmr; [|done].
    assert (Hh : q = true → h ≠ Some p).
    { intros -> ->. by destruct (Forall_lookup_1 _ _ _ _ Hr Hmr eq_refl). }
    destruct q; [|done]. specialize (Hh eq_refl). simpl.
    assert (Hquiet : Forall (λ r, mr_onstop r = Some p →
                          mr_state r = inactive ∧ mr_stop_queued r = false)
                       (alter (with_state inactive false) mr (recorders w))).
    { apply Forall_alter; [done|]. by intros x _ _ _. }
    repeat (rewrite ?forEach_track_stop; simpl; destruct_inner; simpl);
      rewrite ?forEach_track_stop; simpl;
      repeat (destruct_inner; simpl);
      (split; simpl;
       [ rewrite ?list_lookup_insert_ne by congruence; done | done ]).
Qed.

Lemma stranded_calls f p cs w : stranded p w → stranded p (calls f cs w).
Proof.
  revert w. induction cs as [|c cs IH]; intros w Hw; [done|].
  apply IH. by apply stranded_call.
Qed.

Lemma handlers_exist_calls f cs w : handlers_exist w → handlers_exist (calls f cs w).
Proof.
  revert w. induction cs as [|c cs IH]; intros w Hw; [done|].
  apply IH. by apply handlers_exist_call.
Qed.

Lemma stopRecording_inactive (w : World) (mr : nat) (r : MediaRecorder) :
  mediaRecorder w = Some mr → recorders w !! mr = Some r →
  mr_state r = inactive →
  stopRecording w
  = (Normal (length (promises w)),
     set_log (log w ++ [Notice "Recording stopped!"])
       (set_recorders (<[mr := with_onstop (length (promises w)) r]> (recorders w))
          (set_promises (promises w ++ [pending]) w))).
Proof.
  intros Hmr Hr Hst.
  assert (Hlt : mr < length (recorders w)) by by eapply lookup_lt_Some.
  unfold stopRecording. run_M. simpl. rewrite Hmr. simpl.
  rewrite (alter_lookup _ _ _ _ Hr), list_lookup_insert_eq by done.
  destruct r as [st mime state oda h q]. simpl in *. by subst state.
Qed.

(** The stop task on a recorder whose handler holds a pending promise. *)
Lemma fire_stop_fulfils (w : World) (mr p : nat) (r : MediaRecorder)
    (s : MediaStream) (final : Blob) :
  recorders w !! mr = Some r → mr_stop_queued r = true →
  mr_onstop r = Some p → mr_ondataavailable r = true →
  stream w = Some s → promises w !! p = Some pending →
  promises (fire_stop onstop mr final w).2 !! p
  = Some (fulfilled (new_Blob (audioChunks w ++ [final]) "audio/mp3")).
Proof.
  intros Hr Hq Hh Hoda Hs Hp.
  assert (Hlt : p < length (promises w)) by by eapply lookup_lt_Some.
  unfold onstop. run_M. simpl. rewrite Hr.
  destruct r as [st mime state oda h q]. simpl in *. subst q h oda. simpl.
  rewrite list_lookup_alter_eq, Hr. simpl. rewrite Hs, forEach_track_stop. simpl.
  rewrite Hp. simpl. by apply list_lookup_insert_eq.
Qed.

Lemma fresh_handlers_exist fo fi : handlers_exist (fresh fo fi).
Proof. constructor. Qed.

Lemma handlers_exist_quiet (p : nat) (w : World) :
  handlers_exist w → length (promises w) ≤ p →
  Forall (λ r, mr_onstop r = Some p →
               mr_state r = inactive ∧ mr_stop_queued r = false) (recorders w).
Proof.
  intros H Hle. eapply Forall_impl; [exact H|].
  intros r Hr Hq. specialize (Hr _ Hq). lia.
Qed.

(** X10. Two [stopRecording()] calls on one active session before the stop
    event: the second call replaces the [onstop] handler, so when the stop
    task runs it is the second promise that is fulfilled with the
    recording, and the first promise is never settled, whatever is called
    or fired afterwards. *)
Theorem second_stop_takes_over (f : string → bool) (cs0 : list Call)
    (fo : gset string) (fi : gmap string (list Byte.byte))
    (mr : nat) (s : MediaStream) (final : Blob) :
  let w := calls f cs0 (fresh fo fi) in
  active_session w mr s →
  let p1 := length (promises w) in
  let w2 := calls f [Stop; Stop; StopTask mr final] w in
  promises w2 !! S p1
    = Some (fulfilled (new_Blob (audioChunks w ++ [final]) "audio/mp3"))
  ∧ ∀ cs, promises (calls f cs w2) !! p1 = Some pending.
Proof.
  intros w (Hmr & Hs & r & Hr & Hst & Hoda) p1 w2.
  assert (Hwf : handlers_exist w)
    by apply handlers_exist_calls, fresh_handlers_exist.
  assert (Hlt : mr < length (recorders w)) by by eapply lookup_lt_Some.
  set (r1 := with_state inactive true (with_onstop p1 r)).
  assert (Hr1 : recorders (stopping mr r w) !! mr = Some r1)
    by (by apply list_lookup_insert_eq).
  set (w1 := (stopRecording (stopping mr r w)).2).
  assert (Hw1 : calls f [Stop; Stop] w = w1).
  { unfold calls. cbn [foldl call]. unfold mbind, St_bind, mret, St_ret.
    destruct (stopRecording_session w mr r Hmr Hr Hst) as [-> _]. cbn [snd].
    unfold w1. by destruct (stopRecording (stopping mr r w)) as [[] ?]. }
  assert (Hw1eq := stopRecording_inactive (stopping mr r w) mr r1 Hmr Hr1 eq_refl).
  assert (Hlen : length (promises (stopping mr r w)) = S p1).
  { simpl. rewrite length_app. simpl. subst p1. lia. }
  rewrite Hlen in Hw1eq. apply (f_equal snd) in Hw1eq. cbn [snd] in Hw1eq.
  fold w1 in Hw1eq. clearbody w1.
  assert (Hstr : stranded p1 w1).
  { rewrite Hw1eq. split; simpl.
    - apply lookup_app_l_Some, lookup_snoc_length.
    - rewrite list_insert_insert_eq. apply Forall_insert.
      + by apply handlers_exist_quiet.
      + simpl. intros [= Heq]. lia. }
  assert (Hw2 : w2 = calls f [StopTask mr final] w1).
  { unfold w2. change [Stop; Stop; StopTask mr final]
      with ([Stop; Stop] ++ [StopTask mr final]).
    by rewrite calls_app, Hw1. }
  split.
  - rewrite Hw2. unfold calls. cbn [foldl call].
    assert (Hch : audioChunks w = audioChunks w1) by (by rewrite Hw1eq).
    rewrite Hch.
    apply (fire_stop_fulfils w1 mr (S p1) (with_onstop (S p1) r1) s);
      rewrite ?Hw1eq; simpl; try done.
    + rewrite list_insert_insert_eq. by apply list_lookup_insert_eq.
    + rewrite <- Hlen. apply lookup_snoc_length.
  - intros cs. rewrite Hw2, <- calls_app. by apply stranded_calls.
Qed.

Lemma second_stop_takes_over_witness :
  let s := {| stream_id := 1; tracks := [10] |} in
  let final := {| blob_bytes := [Byte.x49; Byte.x44]; blob_type := "audio/webm" |} in
  let w2 := calls (λ _, true) [Start (Granted s); Stop; Stop; StopTask 0 final]
              (fresh ∅ ∅) in
  promises w2 !! 1 = Some (fulfilled (new_Blob [final] "audio/mp3"))
  ∧ promises w2 !! 0 = Some pending.
Proof.
  intros s final w2.
  destruct (second_stop_takes_over (λ _, true) [Start (Granted s)] ∅ ∅ 0 s final)
    as [H1 H2].
  { repeat split. eexists. repeat split. }
  specialize (H2 []). vm_compute in H1, H2. vm_compute. split; [exact H1 | exact H2].
Defined.

(** X11. Once a session is over (its recorder is inactive and its stop
    task has run), the wrapper still holds the recorder, and a further
    [stopRecording()] returns a promise that is never settled, whatever is
    called or fired afterwards. *)
Theorem stop_after_the_end_never_settles (f : string → bool) (cs0 : list Call)
    (fo : gset string) (fi : gmap string (list Byte.byte))
    (mr : nat) (r : MediaRecorder) :
  let w := calls f cs0 (fresh fo fi) in
  mediaRecorder w = Some mr → recorders w !! mr = Some r →
  mr_state r = inactive → mr_stop_queued r = false →
  let p := length (promises w) in
  (stopRecording w).1 = Normal p
  ∧ ∀ cs, promises (calls f cs (stopRecording w).2) !! p = Some pending.
Proof.
  intros w Hmr Hr Hst Hq p.
  assert (Hwf : handlers_exist w)
    by apply handlers_exist_calls, fresh_handlers_exist.
  rewrite (stopRecording_inactive w mr r Hmr Hr Hst). split; [done|].
  intros cs. apply stranded_calls. split; simpl.
  - apply lookup_snoc_length.
  - apply Forall_insert; [by apply handlers_exist_quiet|]. by simpl.
Qed.

Lemma stop_after_the_end_never_settles_witness :
  let s := {| stream_id := 1; tracks := [10] |} in
  let w := calls (λ _, true) (session s [] empty_Blob 0) (fresh ∅ ∅) in
  let s' := {| stream_id := 2; tracks := [20] |} in
  promises (calls (λ _, true) (session s' [] empty_Blob 1) (stopRecording w).2) !! 1
  = Some pending.
Proof.
  intros s w s'.
  destruct (stop_after_the_end_never_settles (λ _, true) (session s [] empty_Blob 0)
              ∅ ∅ 0 (with_state inactive false (with_onstop 0 (started_recorder (λ _, true) s))))
    as [_ H]; [by vm_compute | by vm_compute | reflexivity | reflexivity |].
  specialize (H (session s' [] empty_Blob 1)). vm_compute in H. vm_compute.
  exact H.
Defined.

(** ** Blank names *)

Lemma trim_blank (s : string) : all_whitespace s = true → trim s = "".
Proof.
  unfold trim. induction s as [|c s IH]; [done|]. simpl.
  intros [Hc Hs]%andb_true_iff. rewrite Hc. by apply IH.
Qed.

(** X12. A name that is empty or holds only white space is ignored by both
    dialogs.  In the rename dialog the callback is not called, the dialog
    stays as it is and the file handle keeps its name; in the recording
    dialog nothing is stopped or saved: the plugin and the world stay
    exactly as they were. *)
Theorem blank_name_is_ignored (input : string) :
  all_whitespace input = true →
  (∀ (onRename : string → M unit) (m : RenameModal) (w : World),
     inputEl m = input → renameBtn_onclick onRename m w = (Normal m, w))
  ∧ (∀ (createBinary_replaces : bool) (now : N) (a : App),
       stopBtn_onclick createBinary_replaces input now a = (Normal (), a)).
Proof.
  intros Hblank%trim_blank. split.
  - intros onRename m w Hm. unfold renameBtn_onclick. by rewrite Hm, Hblank.
  - intros r now a. unfold stopBtn_onclick. step_M. rewrite Hblank. simpl.
    by destruct (recordingModalOpen a).
Qed.

Lemma blank_name_is_ignored_witness :
  let a := set_isRecording true
             (set_modals true true false
                (set_world (started (λ _, true) {| stream_id := 1; tracks := [10] |}
                              (fresh ∅ ∅))
                   (onload ∅ ∅))) in
  stopBtn_onclick false "   " 5 a = (Normal (), a).
Proof.
  intros a. apply (proj2 (blank_name_is_ignored "   " eq_refl)).
Defined.

(** ** The recording flow and the vault *)

Lemma keeps_refl w : keeps_other_files w w.
Proof. by split. Qed.

Lemma keeps_trans w1 w2 w3 :
  keeps_other_files w1 w2 → keeps_other_files w2 w3 → keeps_other_files w1 w3.
Proof.
  intros [H1 H1'] [H2 H2']. split.
  - intros p Hp. by rewrite H2, H1.
  - intros p Hp. by apply H2', H1'.
Qed.

Lemma keeps_same_files w w' : files w' = files w → keeps_other_files w w'.
Proof. intros H. unfold keeps_other_files. rewrite H. by split. Qed.

Lemma bind_unit_snd {S A} (m : St S A) (s : S) :
  ((m ≫= λ _, mret ()) s).2 = (m s).2.
Proof. unfold mbind, St_bind, mret, St_ret. by destruct (m s) as [[] ?]. Qed.

(** The wrapper and the recorder events never touch the vault. *)
Lemma files_call f c w : files (call f c w).2 = files w.
Proof.
  destruct c as [[s|msg]| |mr data|mr final]; unfold call.
  - unfold mbind, St_bind. by rewrite startRecording_granted.
  - unfold mbind, St_bind. by rewrite startRecording_denied.
  - unfold stopRecording. run_M. simpl.
    repeat (destruct_inner; simpl); done.
  - run_M. repeat (destruct_inner; simpl); done.
  - unfold onstop. run_M. simpl.
    destruct (recorders w !! mr) as [[st mime state oda h []]|]; simpl; try done.
    repeat (rewrite ?forEach_track_stop; simpl; destruct_inner; simpl);
      rewrite ?forEach_track_stop; simpl; repeat (destruct_inner; simpl); done.
Qed.

Lemma files_startRecording f answer w : files (startRecording f answer w).2 = files w.
Proof. rewrite <- (files_call f (Start answer) w). unfold call. by rewrite bind_unit_snd. Qed.

Lemma files_stopRecording w : files (stopRecording w).2 = files w.
Proof.
  rewrite <- (files_call (λ _, true) Stop w). unfold call. by rewrite bind_unit_snd.
Qed.

(** [saveAudio], whether it completes or throws, writes at most its own
    path under "Audio/". *)
Lemma saveAudio_keeps r blob filename w :
  keeps_other_files w (saveAudio r blob filename w).2.
Proof.
  assert (Hins : keeps_other_files w
            (set_vault (folders w) (<["Audio/" +:+ filename := blob_bytes blob]> (files w)) w)).
  { split; simpl.
    - intros p Hp. rewrite lookup_insert_ne; [done|]. intros <-.
      by rewrite startsWith_Audio in Hp.
    - intros p Hp. destruct (decide ("Audio/" +:+ filename = p)) as [<-|Hne].
      + by rewrite lookup_insert_eq.
      + by rewrite lookup_insert_ne. }
  unfold saveAudio. run_M. simpl.
  change ("Audio" +:+ "/" +:+ filename) with ("Audio/" +:+ filename).
  destruct Hins as [H1 H2].
  repeat (destruct_inner; simpl); split; simpl; done.
Qed.

Lemma grows_ret {A} (x : A) : grows (mret x).
Proof. intros a. apply keeps_refl. Qed.

Lemma grows_bind {A B} (m : St App A) (k : A → St App B) :
  grows m → (∀ x, grows (k x)) → grows (m ≫= k).
Proof.
  intros Hm Hk a. unfold mbind, St_bind. specialize (Hm a).
  destruct (m a) as [[x|e] a1]; [|exact Hm].
  eapply keeps_trans; [exact Hm | apply Hk].
Qed.

Lemma grows_lift {A} (m : M A) :
  (∀ w, keeps_other_files w (m w).2) → grows (lift m).
Proof.
  intros H a. unfold lift. specialize (H (world a)).
  by destruct (m (world a)) as [c w].
Qed.

Lemma grows_modify (g : App → App) : (∀ a, world (g a) = world a) → grows (modify g).
Proof. intros H a. simpl. rewrite H. apply keeps_refl. Qed.

Lemma grows_gets {A} (g : App → A) : grows (gets g).
Proof. intros a. apply keeps_refl. Qed.

Lemma grows_unhandled (m : St App unit) : grows m → grows (unhandled m).
Proof.
  intros Hm a. unfold unhandled, try_catch. specialize (Hm a).
  by destruct (m a) as [[x|e] a1].
Qed.

Lemma grows_resume r now k value : grows (resume r now k value).
Proof.
  destruct k; simpl; unfold ribbon_stopped, modal_stopped, close_and_open.
  - apply grows_bind; [apply grows_lift, saveAudio_keeps|].
    intros _. by apply grows_modify.
  - apply grows_bind; [apply grows_lift, saveAudio_keeps|].
    intros _. apply grows_bind; [by apply grows_modify|].
    intros _. by apply grows_modify.
Qed.

Lemma grows_resume_all r now ks : grows (resume_all r now ks).
Proof.
  induction ks as [|[p k] ks IH]; [apply grows_ret|].
  cbn [resume_all]. apply grows_bind; [apply grows_gets|].
  intros [[|value]|]; try exact IH.
  apply grows_bind; [by apply grows_modify|]. intros _.
  apply grows_bind; [apply grows_unhandled, grows_resume|]. by intros _.
Qed.

Lemma grows_await_stop r k now : grows (await_stop r k now).
Proof.
  unfold await_stop, resume_settled.
  apply grows_bind.
  { apply grows_lift. intros w. apply keeps_same_files, files_stopRecording. }
  intros p. apply grows_bind; [by apply grows_modify|]. intros _.
  apply grows_bind; [apply grows_gets|]. intros ks. apply grows_resume_all.
Qed.

Lemma grows_handle f r ev : grows (handle f r ev).
Proof.
  destruct ev as [now|answer|mr data|mr final now|input now]; cbn [handle].
  - unfold ribbon_click. apply grows_bind; [by apply grows_modify|]. intros _.
    apply grows_bind; [apply grows_gets|]. intros [|].
    + by apply grows_modify.
    + apply grows_await_stop.
  - unfold media_answered. apply grows_bind; [apply grows_gets|]. intros [|n].
    + apply grows_ret.
    + apply grows_bind; [by apply grows_modify|]. intros _.
      apply grows_bind.
      { apply grows_lift. intros w. apply keeps_same_files, files_startRecording. }
      intros _. by apply grows_modify.
  - unfold data_available. apply grows_bind; [apply grows_gets|].
    intros [[? ? [] ? ? ?]|]; try apply grows_ret.
    apply grows_lift. intros w. apply keeps_same_files.
    apply (files_call f (Data mr data)).
  - unfold stop_fired, resume_settled. apply grows_bind.
    { apply grows_lift. intros w. apply keeps_same_files.
      apply (files_call f (StopTask mr final)). }
    intros _. apply grows_bind; [apply grows_gets|]. intros ks.
    apply grows_resume_all.
  - unfold stopBtn_onclick. apply grows_bind; [apply grows_gets|]. intros [|].
    + destruct (truthy (trim input)); [|apply grows_ret].
      apply grows_bind; [apply grows_gets|]. intros [|]; [|apply grows_ret].
      apply grows_await_stop.
    + apply grows_ret.
Qed.

(** X13. Whatever the user and the host do, in any order, the recording
    flow changes the vault's files only by writing under "Audio/": every
    file outside "Audio/" keeps its bytes, and no file anywhere is ever
    removed. *)
Theorem recording_only_adds_under_Audio (f : string → bool)
    (createBinary_replaces : bool) (evs : list Event) (a : App) :
  let a' := run f createBinary_replaces evs a in
  (∀ p, startsWith p "Audio/" = false →
        files (world a') !! p = files (world a) !! p)
  ∧ (∀ p, is_Some (files (world a) !! p) → is_Some (files (world a') !! p)).
Proof.
  revert a. induction evs as [|ev evs IH]; intros a; [by split|].
  change (run f createBinary_replaces (ev :: evs) a)
    with (run f createBinary_replaces evs (step f createBinary_replaces a ev)).
  apply (keeps_trans _ (world (step f createBinary_replaces a ev))).
  - apply grows_handle.
  - apply IH.
Qed.

(** ** Stopping and saving, end to end *)

Lemma await_stop_session r k now a mr rec :
  awaitingStop a = [] →
  mediaRecorder (world a) = Some mr → recorders (world a) !! mr = Some rec →
  mr_state rec = recording →
  await_stop r k now a
  = (Normal (),
     set_awaiting (awaitingMedia a) [(length (promises (world a)), k)]
       (set_world (stopping mr rec (world a)) a)).
Proof.
  intros Hks Hmr Hr Hst. unfold await_stop, resume_settled, lift. step_M.
  destruct (stopRecording_session (world a) mr rec Hmr Hr Hst) as [-> _].
  cbn [awaitingStop set_awaiting set_world awaitingMedia]. rewrite Hks.
  cbn [app resume_all]. step_M.
  cbn [world set_awaiting set_world promises stopping set_log set_recorders set_promises].
  rewrite lookup_snoc_length. done.
Qed.

Lemma stop_fired_resumes r k now a0 mr rec s final :
  recorders (world a0) !! mr = Some rec → mr_ondataavailable rec = true →
  stream (world a0) = Some s →
  write_accepted r ("Audio/" +:+ target now k) (world a0) →
  let a := set_awaiting (awaitingMedia a0) [(length (promises (world a0)), k)]
             (set_world (stopping mr rec (world a0)) a0) in
  let audioBlob := new_Blob (audioChunks (world a0) ++ [final]) "audio/mp3" in
  ∃ a', stop_fired r mr final now a = (Normal (), a')
        ∧ world a' = saved audioBlob (target now k)
                       (stopped false mr rec s final (world a0))
        ∧ awaitingStop a' = [] ∧ awaitingMedia a' = awaitingMedia a0
        ∧ recordingModalOpen a' = false ∧ playbackModalOpen a' = true
        ∧ onStopRecording a' = onStopRecording a0
        ∧ isRecording a' = match k with
                           | RibbonStop => isRecording a0
                           | ModalStop _ => false
                           end.
Proof.
  intros Hr Hoda Hs Hacc a audioBlob. subst a.
  unfold stop_fired, resume_settled, lift. step_M.
  cbn [world set_awaiting set_world].
  destruct (fire_stop_session (world a0) mr rec s final Hr Hoda Hs) as [-> _].
  cbn [awaitingStop set_awaiting set_world resume_all]. step_M.
  cbn [world set_awaiting set_world promises stopped].
  rewrite lookup_snoc_length.
  cbn [awaitingStop awaitingMedia set_world set_awaiting].
  rewrite filter_cons_False by (simpl; tauto). rewrite filter_nil.
  destruct k as [|filename]; cbn [resume target] in *;
    unfold unhandled, ribbon_stopped, modal_stopped, close_and_open, lift; step_M;
    cbn [world set_awaiting set_world];
    rewrite saveAudio_accepted by exact Hacc;
    eexists; repeat split.
Qed.

Lemma stopped_stream_dead keep mr rec s final w blob filename :
  stream_live (saved blob filename (stopped keep mr rec s final w)) s = false.
Proof.
  apply stream_live_false. intros t Ht. simpl.
  apply elem_of_union_r. by apply elem_of_list_to_set.
Qed.

Lemma new_Blob_bytes_snoc (chunks : list Blob) (final : Blob) (type : string) :
  blob_bytes (new_Blob (chunks ++ [final]) type)
  = concat (map blob_bytes chunks) ++ blob_bytes final.
Proof.
  unfold new_Blob. cbn [blob_bytes]. rewrite map_app, concat_app. simpl.
  by rewrite app_nil_r.
Qed.

(** X14. "Stop & Save" in the recording dialog, then the recorder's stop
    event: the recording (the chunks buffered so far and the one delivered
    with the stop) is in the vault under the trimmed input plus ".mp3",
    the recording flag is off, the recording dialog is closed, the playback
    dialog is open, the device stream is released and no handler is left
    waiting. *)
Theorem stop_and_save_flow (f : string → bool) (createBinary_replaces : bool)
    (input : string) (now1 now2 : N) (a : App) (mr : nat) (s : MediaStream)
    (final : Blob) :
  recordingModalOpen a = true → onStopRecording a = true →
  awaitingStop a = [] → active_session (world a) mr s →
  trim input ≠ "" →
  write_accepted createBinary_replaces ("Audio/" +:+ trim input +:+ ".mp3") (world a) →
  let a' := run f createBinary_replaces
              [StopAndSave input now1; StopFired mr final now2] a in
  files (world a') !! ("Audio/" +:+ trim input +:+ ".mp3")
    = Some (concat (map blob_bytes (audioChunks (world a))) ++ blob_bytes final)
  ∧ isRecording a' = false ∧ recordingModalOpen a' = false
  ∧ playbackModalOpen a' = true ∧ stream_live (world a') s = false
  ∧ awaitingStop a' = [].
Proof.
  intros Hopen Hcb Hks (Hmr & Hs & rec & Hr & Hst & Hoda) Hname Hacc a'.
  assert (H1 : (stopBtn_onclick createBinary_replaces input now1 a).2
               = set_awaiting (awaitingMedia a)
                   [(length (promises (world a)), ModalStop (trim input +:+ ".mp3"))]
                   (set_world (stopping mr rec (world a)) a)).
  { unfold stopBtn_onclick. step_M. rewrite Hopen. cbv beta iota zeta.
    destruct (trim input) as [|c rest] eqn:Htrim; [done|]. cbn [truthy].
    rewrite Hcb. cbv beta iota.
    by rewrite (await_stop_session _ _ _ a mr rec Hks Hmr Hr Hst). }
  destruct (stop_fired_resumes createBinary_replaces
              (ModalStop (trim input +:+ ".mp3")) now2 a mr rec s final
              Hr Hoda Hs Hacc)
    as (a2 & Hrun & Hw & Hks' & _ & Hro & Hpo & _ & Hrec).
  assert (Ha' : a' = a2).
  { unfold a', run. cbn [foldl]. unfold step. cbn [handle].
    by rewrite H1, Hrun. }
  clearbody a'. subst a'. rewrite Hw. split.
  { unfold saved. cbn [files set_log set_vault target]. rewrite lookup_insert_eq.
    f_equal. apply (new_Blob_bytes_snoc _ _ "audio/mp3"). }
  split; [exact Hrec|]. split; [exact Hro|]. split; [exact Hpo|].
  split; [apply stopped_stream_dead | exact Hks'].
Qed.

Lemma stop_and_save_flow_witness :
  let s := {| stream_id := 1; tracks := [10] |} in
  let final := {| blob_bytes := [Byte.x49; Byte.x44]; blob_type := "audio/webm" |} in
  let a := run (λ _, true) false [RibbonClick 1; MediaAnswered (Granted s)]
             (onload ∅ ∅) in
  let a' := run (λ _, true) false [StopAndSave " memo " 2; StopFired 0 final 3] a in
  files (world a') !! "Audio/memo.mp3" = Some [Byte.x49; Byte.x44]
  ∧ isRecording a' = false ∧ playbackModalOpen a' = true.
Proof.
  intros s final a a'.
  destruct (stop_and_save_flow (λ _, true) false " memo " 2 3 a 0 s final)
    as (H1 & H2 & _ & H3 & _);
    [reflexivity | reflexivity | reflexivity
    | repeat split; eexists; repeat split | discriminate | by right |].
  vm_compute in H1, H2, H3. vm_compute. by repeat split.
Defined.

(** X15. A click on the ribbon while recording, then the recorder's stop
    event: the recording is in the vault under the name generated from the
    clock at the time of the stop event, the recording flag is off, the
    recording dialog is closed, the playback dialog is open and the device
    stream is released. *)
Theorem ribbon_stop_flow (f : string → bool) (createBinary_replaces : bool)
    (now1 now2 : N) (a : App) (mr : nat) (s : MediaStream) (final : Blob) :
  isRecording a = true → awaitingStop a = [] →
  active_session (world a) mr s →
  write_accepted createBinary_replaces ("Audio/" +:+ defaultName now2) (world a) →
  let a' := run f createBinary_replaces [RibbonClick now1; StopFired mr final now2] a in
  files (world a') !! ("Audio/" +:+ defaultName now2)
    = Some (concat (map blob_bytes (audioChunks (world a))) ++ blob_bytes final)
  ∧ isRecording a' = false ∧ recordingModalOpen a' = false
  ∧ playbackModalOpen a' = true ∧ stream_live (world a') s = false
  ∧ awaitingStop a' = [].
Proof.
  intros Hrec Hks (Hmr & Hs & rec & Hr & Hst & Hoda) Hacc a'.
  assert (H1 : (ribbon_click createBinary_replaces now1 a).2
               = set_awaiting (awaitingMedia a)
                   [(length (promises (world a)), RibbonStop)]
                   (set_world (stopping mr rec (world a)) (set_isRecording false a))).
  { unfold ribbon_click. step_M. cbn [isRecording set_isRecording]. rewrite Hrec.
    cbn [negb].
    by rewrite (await_stop_session _ _ _ (set_isRecording false a) mr rec Hks Hmr Hr Hst). }
  destruct (stop_fired_resumes createBinary_replaces RibbonStop now2
              (set_isRecording false a) mr rec s final Hr Hoda Hs Hacc)
    as (a2 & Hrun & Hw & Hks' & _ & Hro & Hpo & _ & Hrec').
  assert (Ha' : a' = a2).
  { unfold a', run. cbn [foldl]. unfold step. cbn [handle].
    rewrite H1. exact (f_equal snd Hrun). }
  clearbody a'. subst a'. rewrite Hw. split.
  { unfold saved. cbn [files set_log set_vault target]. rewrite lookup_insert_eq.
    f_equal. apply (new_Blob_bytes_snoc _ _ "audio/mp3"). }
  split; [exact Hrec'|]. split; [exact Hro|]. split; [exact Hpo|].
  split; [apply stopped_stream_dead | exact Hks'].
Qed.

Lemma ribbon_stop_flow_witness :
  let s := {| stream_id := 1; tracks := [10] |} in
  let final := {| blob_bytes := [Byte.x49; Byte.x44]; blob_type := "audio/webm" |} in
  let a := run (λ _, true) false [RibbonClick 1; MediaAnswered (Granted s)]
             (onload ∅ ∅) in
  let a' := run (λ _, true) false [RibbonClick 2; StopFired 0 final 3] a in
  files (world a') !! "Audio/Recording-3.mp3" = Some [Byte.x49; Byte.x44]
  ∧ isRecording a' = false ∧ playbackModalOpen a' = true.
Proof.
  intros s final a a'.
  destruct (ribbon_stop_flow (λ _, true) false 2 3 a 0 s final)
    as (H1 & H2 & _ & H3 & _);
    [reflexivity | reflexivity
    | repeat split; eexists; repeat split | by right |].
  vm_compute in H1, H2, H3. vm_compute. by repeat split.
Defined.

(** ** Unloading the plugin *)

(** X16. Unloading looks at the flag only.  With the flag on and a session
    active, the recorder is stopped and the playback dialog closed, but
    nobody waits for the stop: when the stop event arrives the device
    stream is released and the recording is dropped, the vault being
    exactly as before.  With the flag off, the world is left as it is,
    active session or not. *)
Theorem unload_drops_recording (f : string → bool) (createBinary_replaces : bool)
    (mr : nat) (s : MediaStream) (final : Blob) (now : N) (a : App) :
  awaitingStop a = [] → active_session (world a) mr s →
  (isRecording a = true →
     let a1 := (onunload stopRecording a).2 in
     let a2 := step f createBinary_replaces a1 (StopFired mr final now) in
     playbackModalOpen a1 = false
     ∧ files (world a2) = files (world a) ∧ folders (world a2) = folders (world a)
     ∧ stream_live (world a2) s = false
     ∧ audioChunks (world a2) = [])
  ∧ (isRecording a = false → world (onunload stopRecording a).2 = world a).
Proof.
  intros Hks (Hmr & Hs & rec & Hr & Hst & Hoda). split.
  - intros Hrec a1 a2.
    assert (H1 : a1 = set_modals (onStopRecording a) (recordingModalOpen a) false
                        (set_world (stopping mr rec (world a)) a)).
    { unfold a1, onunload, lift. step_M. rewrite Hrec. cbv beta iota.
      by destruct (stopRecording_session (world a) mr rec Hmr Hr Hst) as [-> _]. }
    assert (H2 : a2 = set_world (stopped false mr rec s final (world a)) a1).
    { unfold a2, step. cbn [handle]. unfold stop_fired, resume_settled, lift. step_M.
      rewrite H1. cbn [world set_modals set_world].
      destruct (fire_stop_session (world a) mr rec s final Hr Hoda Hs) as [-> _].
      cbn [awaitingStop set_modals set_world]. by rewrite Hks. }
    clearbody a1 a2. subst a2 a1. split; [done|]. split; [done|]. split; [done|].
    split; [|done]. apply stream_live_false. intros t Ht. simpl.
    apply elem_of_union_r. by apply elem_of_list_to_set.
  - intros Hrec. unfold onunload. step_M. by rewrite Hrec.
Qed.

Lemma unload_drops_recording_witness :
  let s := {| stream_id := 1; tracks := [10] |} in
  let final := {| blob_bytes := [Byte.x49]; blob_type := "audio/webm" |} in
  let a := run (λ _, true) false [RibbonClick 1; MediaAnswered (Granted s)]
             (onload ∅ ∅) in
  let a2 := step (λ _, true) false (onunload stopRecording a).2 (StopFired 0 final 2) in
  files (world a2) = ∅ ∧ stream_live (world a2) s = false.
Proof.
  intros s final a a2.
  destruct (unload_drops_recording (λ _, true) false 0 s final 2 a) as [H _];
    [reflexivity | repeat split; eexists; repeat split |].
  destruct (H eq_refl) as (_ & H1 & _ & H2 & _).
  split; [exact H1 | exact H2].
Defined.

(** ** The ribbon of [src/main.ts] *)

Lemma orphan_saveAudio r blob filename p w :
  orphan p w → orphan p (saveAudio r blob filename w).2.
Proof.
  intros H. unfold saveAudio. run_M. simpl.
  repeat (destruct_inner; simpl); exact H.
Qed.

Lemma hung_lift {A} (m : M A) p a :
  (∀ w, orphan p w → orphan p (m w).2) → hung p a → hung p (lift m a).2.
Proof.
  intros Hm [Ho Hin]. unfold lift. specialize (Hm _ Ho).
  destruct (m (world a)) as [c w]. by split.
Qed.

Lemma hung_ribbon_stopped r now value p a :
  hung p a → hung p (unhandled (MainTsPlugin.ribbon_stopped r now value) a).2.
Proof.
  intros [Ho Hin]. unfold unhandled, MainTsPlugin.ribbon_stopped, lift, try_catch.
  step_M. rewrite MainTs_saveAudio_eq.
  pose proof (orphan_saveAudio r value (defaultName now) p _ Ho) as Ho'.
  destruct (saveAudio r value (defaultName now) (world a)) as [[[]|e] w]; by split.
Qed.

Lemma hung_resume_all r now ks p a :
  hung p a → hung p (MainTsPlugin.resume_all r now ks a).2.
Proof.
  revert a. induction ks as [|[q k] ks IH]; intros a Ha; [done|].
  cbn [MainTsPlugin.resume_all]. unfold mbind at 1, St_bind at 1. unfold gets at 1.
  destruct (promises (world a) !! q) as [[|value]|] eqn:Hq; try by apply IH.
  assert (Hqp : q ≠ p).
  { intros ->. destruct Ha as [[Hp _] _]. congruence. }
  unfold mbind, St_bind. unfold modify at 1.
  set (a1 := set_awaiting _ _ a).
  assert (Ha1 : hung p a1).
  { destruct Ha as [Ho Hin]. split; [done|]. simpl.
    apply list_elem_of_filter. by split. }
  pose proof (hung_ribbon_stopped r now value p a1 Ha1) as Ha2.
  destruct (unhandled _ a1) as [[[]|e] a2]; [by apply IH | exact Ha2].
Qed.

Lemma orphan_MainTs_stopRecording p w :
  orphan p w → orphan p (MainTs.stopRecording w).2.
Proof.
  intros H. rewrite <- (bind_unit_snd MainTs.stopRecording w).
  apply (orphan_call (λ _, true) p Stop w H).
Qed.

Lemma hung_step f r p ev a :
  hung p a → hung p (MainTsPlugin.step f r a ev).
Proof.
  intros Ha. unfold MainTsPlugin.step.
  destruct ev as [now|answer|mr data|mr final now|input now];
    cbn [MainTsPlugin.handle]; [| | | |done].
  - unfold MainTsPlugin.ribbon_click. unfold mbind at 1, St_bind at 1, modify at 1.
    set (a1 := set_isRecording _ a).
    assert (Ha1 : hung p a1) by (destruct Ha; by split).
    unfold mbind at 1, St_bind at 1, gets at 1.
    destruct (isRecording a1).
    + destruct Ha1. by split.
    + unfold mbind at 1, St_bind at 1.
      pose proof (hung_lift MainTs.stopRecording p a1
                    (orphan_MainTs_stopRecording p) Ha1) as Ha2.
      destruct (lift MainTs.stopRecording a1) as [[p'|e] a2]; [|exact Ha2].
      unfold mbind at 1, St_bind at 1, modify at 1.
      unfold MainTsPlugin.resume_settled, mbind, St_bind, gets.
      apply hung_resume_all. destruct Ha2 as [Ho Hin]. split; [done|].
      simpl. apply elem_of_app. by left.
  - unfold MainTsPlugin.media_answered. unfold mbind at 1, St_bind at 1, gets at 1.
    destruct (awaitingMedia a) as [|n]; [done|].
    unfold mbind, St_bind, modify. set (a1 := set_awaiting _ _ a).
    assert (Ha1 : hung p a1) by (destruct Ha; by split).
    unfold unhandled, try_catch.
    pose proof (hung_lift (MainTs.startRecording f answer) p a1
                  (λ w, orphan_call f p (Start answer) w) Ha1) as Ha2.
    by destruct (lift _ a1) as [[[]|e] a2].
  - unfold MainTsPlugin.data_available. unfold mbind, St_bind, gets.
    destruct (recorders (world a) !! mr) as [[? ? [] ? ? ?]|]; try done.
    apply (hung_lift (fire_dataavailable mr data) p a
             (λ w, orphan_call f p (Data mr data) w) Ha).
  - unfold MainTsPlugin.stop_fired. unfold mbind at 1, St_bind at 1.
    pose proof (hung_lift (fire_stop MainTs.onstop mr final) p a
                  (λ w, orphan_call f p (StopTask mr final) w) Ha) as Ha2.
    destruct (lift _ a) as [[[]|e] a2]; [|exact Ha2].
    unfold MainTsPlugin.resume_settled, mbind, St_bind, gets.
    by apply hung_resume_all.
Qed.

Lemma hung_run f r p evs a :
  hung p a → hung p (MainTsPlugin.run f r evs a).
Proof.
  revert a. induction evs as [|ev evs IH]; intros a Ha; [done|].
  apply IH. by apply hung_step.
Qed.

Lemma MainTs_ribbon_click_stop r now a mr rec :
  isRecording a = true → awaitingStop a = [] →
  mediaRecorder (world a) = Some mr → recorders (world a) !! mr = Some rec →
  mr_state rec = recording →
  MainTsPlugin.ribbon_click r now a
  = (Normal (),
     set_awaiting (awaitingMedia a) [(length (promises (world a)), RibbonStop)]
       (set_world (stopping mr rec (world a)) (set_isRecording false a))).
Proof.
  intros Hrec Hks Hmr Hr Hst.
  unfold MainTsPlugin.ribbon_click, MainTsPlugin.resume_settled, lift. step_M.
  cbn [isRecording set_isRecording world]. rewrite Hrec. cbn [negb].
  change (world (set_isRecording false a)) with (world a).
  destruct (stopRecording_session (world a) mr rec Hmr Hr Hst) as [_ ->].
  cbn [awaitingStop set_awaiting set_world awaitingMedia set_isRecording].
  rewrite Hks. cbn [app MainTsPlugin.resume_all]. step_M.
  cbn [world set_awaiting set_world promises stopping set_log set_recorders set_promises].
  rewrite lookup_snoc_length. done.
Qed.

Lemma MainTs_stop_fired_resumes r now a0 mr rec s final :
  recorders (world a0) !! mr = Some rec → mr_ondataavailable rec = true →
  stream (world a0) = Some s →
  write_accepted r ("Audio/" +:+ defaultName now) (world a0) →
  let a := set_awaiting (awaitingMedia a0) [(length (promises (world a0)), RibbonStop)]
             (set_world (stopping mr rec (world a0)) a0) in
  let audioBlob := new_Blob (audioChunks (world a0) ++ [final]) "audio/mp3" in
  ∃ a', MainTsPlugin.stop_fired r mr final now a = (Normal (), a')
        ∧ world a' = saved audioBlob (defaultName now)
                       (stopped true mr rec s final (world a0))
        ∧ awaitingStop a' = [] ∧ awaitingMedia a' = awaitingMedia a0
        ∧ playbackModalOpen a' = true
        ∧ isRecording a' = isRecording a0.
Proof.
  intros Hr Hoda Hs Hacc a audioBlob. subst a.
  unfold MainTsPlugin.stop_fired, MainTsPlugin.resume_settled, lift. step_M.
  cbn [world set_awaiting set_world].
  destruct (fire_stop_session (world a0) mr rec s final Hr Hoda Hs) as [_ ->].
  cbn [awaitingStop set_awaiting set_world MainTsPlugin.resume_all]. step_M.
  cbn [world set_awaiting set_world promises stopped].
  rewrite lookup_snoc_length.
  cbn [awaitingStop awaitingMedia set_world set_awaiting].
  rewrite filter_cons_False by (simpl; tauto). rewrite filter_nil.
  unfold unhandled, MainTsPlugin.ribbon_stopped, lift. step_M.
  cbn [world set_awaiting set_world].
  rewrite MainTs_saveAudio_eq, saveAudio_accepted by exact Hacc.
  eexists; repeat split.
Qed.

Lemma MainTs_data_events f r mr rec chunks a :
  recorders (world a) !! mr = Some rec → mr_state rec = recording →
  mr_ondataavailable rec = true →
  MainTsPlugin.run f r (map (DataAvailable mr) chunks) a
  = set_world (set_this (mediaRecorder (world a)) (audioChunks (world a) ++ chunks)
                 (stream (world a)) (world a)) a.
Proof.
  intros Hr Hst Hoda. revert a Hr.
  induction chunks as [|c chunks IH]; intros a Hr.
  - destruct a as [? ? ? ? ? ? w]. destruct w. unfold set_world, set_this. simpl.
    by rewrite app_nil_r.
  - change (MainTsPlugin.run f r (map (DataAvailable mr) (c :: chunks)) a)
      with (MainTsPlugin.run f r (map (DataAvailable mr) chunks)
              (MainTsPlugin.data_available mr c a).2).
    assert (H1 : (MainTsPlugin.data_available mr c a).2
                 = set_world (set_this (mediaRecorder (world a))
                                (audioChunks (world a) ++ [c])
                                (stream (world a)) (world a)) a).
    { unfold MainTsPlugin.data_available, lift. step_M. rewrite Hr.
      destruct rec as [st mime state oda h q]. simpl in Hst, Hoda. subst.
      by rewrite (fire_dataavailable_installed mr _ c (world a) Hr eq_refl). }
    rewrite H1, IH by done. unfold set_world, set_this. simpl.
    by rewrite <- app_assoc.
Qed.

(** X17. The revision of [src/main.ts], from loading the plugin: a click on
    the ribbon, the device granted, any chunks delivered, a second click and
    the recorder's stop event.  The vault then holds the delivered bytes, in
    the order of delivery, under Audio/Recording-<clock at the stop
    event>.mp3, and every other path is as it was at load; the flag is
    off, the playback dialog is open, the stream's tracks are stopped
    while the wrapper still holds the stream, and no handler is left
    waiting. *)
Theorem MainTs_click_record_click_saves (f : string → bool)
    (createBinary_replaces : bool) (fo : gset string)
    (fi : gmap string (list Byte.byte)) (s : MediaStream) (chunks : list Blob)
    (final : Blob) (t1 t2 t3 : N) :
  write_accepted createBinary_replaces ("Audio/" +:+ defaultName t3) (fresh fo fi) →
  let a' := MainTsPlugin.run f createBinary_replaces
              ([RibbonClick t1; MediaAnswered (Granted s)]
               ++ map (DataAvailable 0) chunks
               ++ [RibbonClick t2; StopFired 0 final t3]) (onload fo fi) in
  files (world a') !! ("Audio/" +:+ defaultName t3)
    = Some (concat (map blob_bytes chunks) ++ blob_bytes final)
  ∧ (∀ p, p ≠ "Audio/" +:+ defaultName t3 → files (world a') !! p = fi !! p)
  ∧ isRecording a' = false ∧ playbackModalOpen a' = true
  ∧ stream_live (world a') s = false ∧ stream (world a') = Some s
  ∧ awaitingStop a' = [] ∧ awaitingMedia a' = 0.
Proof.
  intros Hacc a'.
  set (a1 := {| isRecording := true; onStopRecording := false;
                recordingModalOpen := false; playbackModalOpen := false;
                awaitingMedia := 0; awaitingStop := [];
                world := started f s (fresh fo fi) |}).
  set (a2 := set_world (recording_with f s chunks (fresh fo fi)) a1).
  assert (Hr : recorders (world a2) !! 0 = Some (started_recorder f s)) by done.
  destruct (MainTs_stop_fired_resumes createBinary_replaces t3
              (set_isRecording false a2) 0 (started_recorder f s) s final
              Hr eq_refl eq_refl Hacc)
    as (a3 & Hrun & Hw & Hks & Hm & Hpo & Hrec).
  assert (Ha' : a' = a3).
  { unfold a', MainTsPlugin.run. rewrite !foldl_app. cbn [foldl].
    assert (H1 : MainTsPlugin.step f createBinary_replaces
                   (MainTsPlugin.step f createBinary_replaces (onload fo fi)
                      (RibbonClick t1)) (MediaAnswered (Granted s)) = a1).
    { unfold MainTsPlugin.step. cbn [MainTsPlugin.handle].
      change (MainTsPlugin.ribbon_click createBinary_replaces t1 (onload fo fi)).2
        with (set_awaiting 1 [] (set_isRecording true (onload fo fi))).
      unfold MainTsPlugin.media_answered, unhandled, lift. step_M.
      cbn [awaitingMedia awaitingStop set_awaiting set_isRecording onload world].
      by rewrite MainTs_startRecording_granted. }
    rewrite H1.
    change (foldl (MainTsPlugin.step f createBinary_replaces) a1
              (map (DataAvailable 0) chunks))
      with (MainTsPlugin.run f createBinary_replaces (map (DataAvailable 0) chunks) a1).
    rewrite (MainTs_data_events f _ 0 (started_recorder f s) chunks a1)
      by done.
    change (set_world _ a1) with a2.
    unfold MainTsPlugin.step at 2. cbn [MainTsPlugin.handle].
    rewrite (MainTs_ribbon_click_stop _ t2 a2 0 (started_recorder f s))
      by done.
    unfold MainTsPlugin.step. cbn [MainTsPlugin.handle snd].
    exact (f_equal snd Hrun). }
  clearbody a'. subst a'. rewrite Hw. split.
  { unfold saved. cbn [files set_log set_vault]. rewrite lookup_insert_eq.
    f_equal. apply (new_Blob_bytes_snoc _ _ "audio/mp3"). }
  split.
  { intros p Hp. unfold saved. cbn [files set_log set_vault].
    by rewrite lookup_insert_ne. }
  split; [exact Hrec|]. split; [exact Hpo|].
  split; [apply stopped_stream_dead|]. by repeat split.
Qed.

Lemma MainTs_click_record_click_saves_witness :
  let s := {| stream_id := 1; tracks := [10] |} in
  let c := {| blob_bytes := [Byte.x49]; blob_type := "audio/webm" |} in
  let final := {| blob_bytes := [Byte.x44]; blob_type := "audio/webm" |} in
  let a' := MainTsPlugin.run (λ _, true) false
              [RibbonClick 1; MediaAnswered (Granted s); DataAvailable 0 c;
               RibbonClick 2; StopFired 0 final 3] (onload ∅ ∅) in
  files (world a') !! "Audio/Recording-3.mp3" = Some [Byte.x49; Byte.x44]
  ∧ isRecording a' = false ∧ playbackModalOpen a' = true.
Proof.
  intros s c final a'.
  destruct (MainTs_click_record_click_saves (λ _, true) false ∅ ∅ s [c] final 1 2 3)
    as (H1 & _ & H2 & H3 & _); [by right|].
  vm_compute in H1, H2, H3. vm_compute. by repeat split.
Defined.

(** X18. The revision of [src/main.ts], from loading the plugin: the device
    request of the first click is denied, and the ribbon is clicked again.
    No notice was shown, the flag is off and no stream is held; and the
    handler of the second click is suspended on a promise that is pending
    and that no recorder's stop handler can settle; whatever events follow,
    the promise stays pending and the handler stays suspended before its
    save. *)
Theorem denied_start_hangs_next_click (f : string → bool)
    (createBinary_replaces : bool) (fo : gset string)
    (fi : gmap string (list Byte.byte)) (message : string) (t1 t2 : N) :
  let a := MainTsPlugin.run f createBinary_replaces
             [RibbonClick t1; MediaAnswered (Denied message); RibbonClick t2]
             (onload fo fi) in
  log (world a) = [] ∧ isRecording a = false ∧ stream (world a) = None
  ∧ ∀ evs, hung 0 (MainTsPlugin.run f createBinary_replaces evs a).
Proof.
  intros a.
  assert (Ha : a = {| isRecording := false; onStopRecording := false;
                      recordingModalOpen := false; playbackModalOpen := false;
                      awaitingMedia := 0; awaitingStop := [(0, RibbonStop)];
                      world := set_promises [pending] (fresh fo fi) |}).
  { unfold a, MainTsPlugin.run. cbn [foldl]. unfold MainTsPlugin.step.
    cbn [MainTsPlugin.handle].
    change (MainTsPlugin.ribbon_click createBinary_replaces t1 (onload fo fi)).2
      with (set_awaiting 1 [] (set_isRecording true (onload fo fi))).
    unfold MainTsPlugin.media_answered, unhandled, lift. step_M.
    cbn [awaitingMedia awaitingStop set_awaiting set_isRecording onload world].
    rewrite MainTs_startRecording_denied. reflexivity. }
  clearbody a. subst a. split; [done|]. split; [done|]. split; [done|].
  intros evs. apply hung_run. split; [by split|]. simpl. apply list_elem_of_here.
Qed.
